(** * pointless: a shallow embedding of the analyzer's decision engine

    The development follows [analyzer/analyzer.go]: the suppression
    comments ([isNolintComment], [buildNolintMap]), the file exclusion
    ([shouldExclude]), the three exemption trackers ([findNilReturns],
    [findReceiverMutations], [findNilUsages]), the size oracle ([sizeOf])
    and the four rules driven by [run].

    Go maps are finite maps ([gmap]) read with the zero value [false] for
    an absent key; [pass.Reportf] appends to the list of diagnostics a
    function returns. *)

From Stdlib Require Import ZArith Ascii String DecimalString List Bool Lia.
From stdpp Require Import base option list gmap strings.

(** Induction principles that reach below the lists and options of a
    nested inductive type. *)
Scheme All for list.
Scheme All for option.

Set Warnings "-clear-no-such-hyp".

Open Scope string_scope.
Open Scope Z_scope.

(** ** Go's [strings] package, as far as the analyzer uses it *)

Module Strings.

(** [strings.HasPrefix(s, prefix)]. *)
Fixpoint HasPrefix (s prefix : string) {struct prefix} : bool :=
  match prefix, s with
  | EmptyString, _ => true
  | String _ _, EmptyString => false
  | String c prefix', String d s' =>
      if Ascii.eqb c d then HasPrefix s' prefix' else false
  end.

(** [s[n:]] for [n <= len(s)]. *)
Fixpoint drop (n : nat) (s : string) : string :=
  match n, s with
  | O, _ => s
  | S n', String _ s' => drop n' s'
  | S _, EmptyString => EmptyString
  end.

(** [s[:n]] for [n <= len(s)]. *)
Fixpoint take (n : nat) (s : string) : string :=
  match n, s with
  | O, _ => EmptyString
  | S n', String c s' => String c (take n' s')
  | S _, EmptyString => EmptyString
  end.

(** [strings.TrimPrefix(s, prefix)]. *)
Definition TrimPrefix (s prefix : string) : string :=
  if HasPrefix s prefix then drop (String.length prefix) s else s.

(** [strings.HasSuffix(s, suffix)]. *)
Definition HasSuffix (s suffix : string) : bool :=
  (String.length suffix <=? String.length s)%nat
  && String.eqb (drop (String.length s - String.length suffix) s) suffix.

(** [strings.TrimSuffix(s, suffix)]. *)
Definition TrimSuffix (s suffix : string) : string :=
  if HasSuffix s suffix
  then take (String.length s - String.length suffix) s
  else s.

(** [strings.Split(s, sep)] for a separator of one byte, the only way the
    analyzer calls it (with [","]): the fields between the separators,
    always at least one field. *)
Fixpoint Split (s : string) (sep : ascii) : list string :=
  match s with
  | EmptyString => [EmptyString]
  | String c s' =>
      if Ascii.eqb c sep then EmptyString :: Split s' sep
      else match Split s' sep with
           | [] => [String c EmptyString]
           | f :: fs => String c f :: fs
           end
  end.

End Strings.

(** Functions of Go's standard library whose results the analyzer only
    passes on: every property below holds whatever they compute, so they
    are an interface here. [filepath_Match] is the [matched] result of
    [filepath.Match(pattern, name)]; the analyzer discards its error. *)
Class GoStdlib := {
  TrimSpace : string -> string;                 (* strings.TrimSpace *)
  filepath_Match : string -> string -> bool;    (* filepath.Match *)
  filepath_Base : string -> string              (* filepath.Base *)
}.

(** ** Go's [go/types] package: types and the size model

    [sizeOf] hands every type to [types.Sizes.Sizeof]. The model covers
    the types of a program without type parameters; [Named] carries the
    type it is declared as, which is what [under] reaches. Sizes are
    [int64]: where [go/types] lets a sum overflow, the wrap-around is
    written out. The alignment [go/types] gives the marker struct
    [align64] of [sync/atomic] is left out. *)

Module types.

Inductive BasicKind : Type :=
| Kbool | Kint | Kint8 | Kint16 | Kint32 | Kint64
| Kuint | Kuint8 | Kuint16 | Kuint32 | Kuint64 | Kuintptr
| Kfloat32 | Kfloat64 | Kcomplex64 | Kcomplex128
| Kstring | KunsafePointer.

Inductive Type_ : Type :=
| Basic (kind : BasicKind)
| Pointer (elem : Type_)
| Slice (elem : Type_)
| Array (len : Z) (elem : Type_)
| Struct (fields : list Type_)
| Map (key elem : Type_)
| Chan (elem : Type_)
| Signature
| Interface
| Named (name : string) (underlying : Type_).

(** [t.Underlying()]. *)
Fixpoint Underlying (t : Type_) : Type_ :=
  match t with
  | Named _ u => Underlying u
  | _ => t
  end.

(** The type assertion of [t] to a pointer to [types.Struct] succeeds. *)
Definition isStruct (t : Type_) : bool :=
  match t with
  | Struct _ => true
  | _ => false
  end.

(** A [types.Object]; [ObjAddr] stands for the address that [==]
    compares. *)
Record Object : Type := mkObject {
  ObjAddr : nat;
  ObjName : string;
  ObjPos : Z
}.

#[global] Instance Object_eq_dec : EqDecision Object.
Proof. solve_decision. Defined.

(** The two implementations of the [Sizes] interface. *)
Inductive Sizes : Type :=
| StdSizes (WordSize MaxAlign : Z)
| gcSizes (WordSize MaxAlign : Z).

Definition WordSize (s : Sizes) : Z :=
  match s with StdSizes w _ | gcSizes w _ => w end.

Definition MaxAlign (s : Sizes) : Z :=
  match s with StdSizes _ m | gcSizes _ m => m end.

(** Two's-complement [int64]. *)
Definition wrap64 (z : Z) : Z := (z + 2 ^ 63) mod 2 ^ 64 - 2 ^ 63.

Definition maxInt64 : Z := 2 ^ 63 - 1.

(** The table [basicSizes]; [0] for the kinds it leaves out. *)
Definition basicSizes (k : BasicKind) : Z :=
  match k with
  | Kbool | Kint8 | Kuint8 => 1
  | Kint16 | Kuint16 => 2
  | Kint32 | Kuint32 | Kfloat32 => 4
  | Kint64 | Kuint64 | Kfloat64 | Kcomplex64 => 8
  | Kcomplex128 => 16
  | _ => 0
  end.

Definition isComplex (k : BasicKind) : bool :=
  match k with Kcomplex64 | Kcomplex128 => true | _ => false end.

(** [align(x, a)]: [(x + a - 1) &^ (a - 1)]. *)
Definition align (x a : Z) : Z :=
  Z.land (wrap64 (x + a - 1)) (Z.lnot (a - 1)).

(** The tail of [Alignof], after the [switch]: the alignment of a type
    that is laid out as one scalar of size [a]. *)
Definition scalarAlign (s : Sizes) (complex : bool) (a : Z) : Z :=
  if a <? 1 then 1
  else let a := if complex then a / 2 else a in
       if a >? MaxAlign s then MaxAlign s else a.

(** [Offsetsof]: the loop over the fields, each given by its size and
    alignment; returns the offsets and the running offset. *)
Fixpoint offsetsFrom (offs : Z) (fields : list (Z * Z)) : list Z :=
  match fields with
  | [] => []
  | (d, a) :: rest =>
      if offs <? 0 then (-1) :: offsetsFrom offs rest
      else
        let offs := align offs a in
        let next := if (0 <=? d) && (0 <=? offs) then wrap64 (offs + d)
                    else -1 in
        offs :: offsetsFrom next rest
  end.

Definition Offsetsof (fields : list (Z * Z)) : list Z := offsetsFrom 0 fields.

(** The [*Struct] case of [Alignof]: the largest field alignment, at
    least 1. *)
Definition structAlign (fields : list (Z * Z)) : Z :=
  fold_left (fun max f => if snd f >? max then snd f else max) fields 1.

(** The [*Struct] case of [Sizeof]. [gcSizes] gives a trailing
    zero-size field one byte and pads to the struct's alignment;
    [StdSizes] does neither. *)
Definition structSize (s : Sizes) (fields : list (Z * Z)) : Z :=
  match last fields with
  | None => 0
  | Some (size, _) =>
      let offs := List.last (Offsetsof fields) 0 in
      if (offs <? 0) || (size <? 0) then -1
      else match s with
           | StdSizes _ _ => wrap64 (offs + size)
           | gcSizes _ _ =>
               let size := if (offs >? 0) && (size =? 0) then 1 else size in
               align (wrap64 (offs + size)) (structAlign fields)
           end
  end.

(** The [*Array] case of [Sizeof], from the length and the element's
    size and alignment. *)
Definition arraySize (s : Sizes) (n esize ealign : Z) : Z :=
  if n <=? 0 then 0
  else if esize <? 0 then -1
  else if esize =? 0 then 0
  else match s with
       | StdSizes _ _ =>
           let ea := align esize ealign in
           if ea <? 0 then -1
           else let n1 := n - 1 in
                if (n1 >? 0) && (ea >? maxInt64 / n1) then -1
                else wrap64 (ea * n1 + esize)
       | gcSizes _ _ =>
           if esize >? maxInt64 / n then -1 else esize * n
       end.

(** [Sizeof] and [Alignof] call each other on the same type; the pair
    is computed in one recursion over the type. *)
Fixpoint layout (s : Sizes) (T : Type_) {struct T} : Z * Z :=
  match T with
  | Named _ u => layout s u
  | Basic k =>
      let size :=
        if 0 <? basicSizes k then basicSizes k
        else match k with
             | Kstring => WordSize s * 2
             | _ => WordSize s
             end in
      (size, match k with
             | Kstring => WordSize s
             | _ => scalarAlign s (isComplex k) size
             end)
  | Array n elem =>
      let '(esize, ealign) := layout s elem in
      (arraySize s n esize ealign, ealign)
  | Slice _ => (WordSize s * 3, WordSize s)
  | Struct fields =>
      let fs := List.map (layout s) fields in
      (structSize s fs, structAlign fs)
  | Interface => (WordSize s * 2, WordSize s)
  | Pointer _ | Map _ _ | Chan _ | Signature =>
      (WordSize s, scalarAlign s false (WordSize s))
  end.

(** [s.Sizeof(T)]. *)
Definition Sizeof (s : Sizes) (T : Type_) : Z := fst (layout s T).

(** [s.Alignof(T)]. *)
Definition Alignof (s : Sizes) (T : Type_) : Z := snd (layout s T).

(** [types.SizesFor(compiler, arch)]: [nil] for a pair it does not
    know. Of the architectures only the one the analyzer asks for is
    listed. *)
Definition SizesFor (compiler arch : string) : option Sizes :=
  if String.eqb compiler "gc" && String.eqb arch "amd64"
  then Some (gcSizes 8 8)
  else None.

End types.

(** [sizeOf]: the size of a type in bytes. [sizes] is what [SizesFor]
    returned; [nil] selects the 64-bit fallback. *)
Definition sizeOfWith (sizes : option types.Sizes) (t : types.Type_) : Z :=
  let sizes :=
    match sizes with
    | None => types.StdSizes 8 8
    | Some sizes => sizes
    end in
  types.Sizeof sizes t.

Definition sizeOf (t : types.Type_) : Z :=
  sizeOfWith (types.SizesFor "gc" "amd64") t.

(** ** Go's [go/token] and [go/ast] packages: the syntax the analyzer reads *)

Module token.

(** [token.Pos]: an offset in the file set. *)
Definition Pos : Type := Z.

(** The tokens the analyzer compares with, and some of their
    neighbours. *)
Inductive Token : Type :=
| ADD | SUB | LAND | LOR | EQL | NEQ | LSS | GTR
| ASSIGN | DEFINE | ADD_ASSIGN | INC | DEC
| IMPORT | CONST | TYPE | VAR.

#[global] Instance Token_eq_dec : EqDecision Token.
Proof. solve_decision. Defined.

End token.

Module ast.

(** The parser's [ast.Object] of an identifier; [ObjPos] is what
    [Pos()] returns, the position of the declaration. *)
Record Object : Type := mkObject {
  ObjName : string;
  ObjPos : token.Pos
}.

Record Ident : Type := mkIdent {
  NamePos : token.Pos;
  Name : string;
  Obj : option Object
}.

(** Expressions, statements and the declarations inside function
    bodies. The node kinds the analyzer tells apart are constructors of
    their own, and so is the parenthesised expression [ast.ParenExpr],
    which no type switch of the analyzer names; every other kind is an
    [OtherExpr], [OtherStmt] or [OtherSpec] that lists its children in
    source order. A function declaration is no part of this family: it
    cannot occur inside a body. *)
Inductive Expr : Type :=
| IdentExpr (id : Ident)
| StarExpr (Star : token.Pos) (X : Expr)
| SelectorExpr (X : Expr) (Sel : Ident)
| IndexExpr (X : Expr) (Index : Expr)
| BinaryExpr (X : Expr) (Op : token.Token) (Y : Expr)
| CallExpr (Fun : Expr) (Args : list Expr)
| ArrayType (Lbrack : token.Pos) (Len : option Expr) (Elt : Expr)
| FuncLit (Func : token.Pos) (Params Results : list Field) (Body : list Stmt)
| ParenExpr (Lparen : token.Pos) (X : Expr)
| OtherExpr (pos : token.Pos) (children : list Sub)
with Field : Type :=
| mkField (Names : list Ident) (Type_ : Expr)
with Stmt : Type :=
| ReturnStmt (Return : token.Pos) (Results : list Expr)
| AssignStmt (Lhs : list Expr) (Tok : token.Token) (Rhs : list Expr)
| IncDecStmt (X : Expr) (Tok : token.Token)
| DeclStmt (Decl : GenDecl)
| OtherStmt (pos : token.Pos) (children : list Sub)
with GenDecl : Type :=
| mkGenDecl (TokPos : token.Pos) (Tok : token.Token) (Specs : list Spec)
with Spec : Type :=
| ValueSpec (Names : list Ident) (Type_ : option Expr) (Values : list Expr)
| OtherSpec (children : list Sub)
with Sub : Type :=
| ExprNode (e : Expr)
| StmtNode (s : Stmt)
| GenDeclNode (d : GenDecl).

Scheme Expr_mut := Induction for Expr Sort Prop
with Field_mut := Induction for Field Sort Prop
with Stmt_mut := Induction for Stmt Sort Prop
with GenDecl_mut := Induction for GenDecl Sort Prop
with Spec_mut := Induction for Spec Sort Prop
with Sub_mut := Induction for Sub Sort Prop.

Combined Scheme syntax_ind
  from Expr_mut, Field_mut, Stmt_mut, GenDecl_mut, Spec_mut, Sub_mut.

Record FuncDecl : Type := mkFuncDecl {
  Recv : option (list Field);          (* fn.Recv, fn.Recv.List *)
  FuncName : Ident;                    (* fn.Name *)
  FuncPos : token.Pos;                 (* fn.Type.Func, the func keyword *)
  FuncParams : list Field;             (* fn.Type.Params.List *)
  FuncResults : option (list Field);   (* fn.Type.Results, .List *)
  FuncBody : option (list Stmt)        (* fn.Body, .List *)
}.

Inductive Decl : Type :=
| FuncDeclD (d : FuncDecl)
| GenDeclD (d : GenDecl).

Record Comment : Type := mkComment {
  Slash : token.Pos;
  Text : string
}.

Record File : Type := mkFile {
  Package : token.Pos;                 (* f.Pos() *)
  Decls : list Decl;
  Comments : list (list Comment)       (* comment groups, cg.List *)
}.

(** A node of a file: a function declaration or a node below the
    declarations. *)
Inductive Node : Type :=
| FuncDeclNode (d : FuncDecl)
| SubNode (n : Sub).

Definition FieldNames (f : Field) : list Ident :=
  match f with mkField names _ => names end.

Definition FieldType (f : Field) : Expr :=
  match f with mkField _ t => t end.

(** [e.Pos()]. *)
Fixpoint ExprPos (e : Expr) : token.Pos :=
  match e with
  | IdentExpr id => NamePos id
  | StarExpr star _ => star
  | SelectorExpr x _ => ExprPos x
  | IndexExpr x _ => ExprPos x
  | BinaryExpr x _ _ => ExprPos x
  | CallExpr f _ => ExprPos f
  | ArrayType lbrack _ _ => lbrack
  | FuncLit func _ _ _ => func
  | ParenExpr lparen _ => lparen
  | OtherExpr pos _ => pos
  end.

(** [n.Pos()] for the nodes [run] visits: the [func] keyword, the
    keyword of a declaration, the first operand of an assignment (the
    parser builds no assignment without one). *)
Definition NodePos (n : Node) : token.Pos :=
  match n with
  | FuncDeclNode fd => FuncPos fd
  | SubNode (GenDeclNode (mkGenDecl tokpos _ _)) => tokpos
  | SubNode (StmtNode (AssignStmt lhs _ _)) =>
      match lhs with
      | x :: _ => ExprPos x
      | [] => 0
      end
  | SubNode (StmtNode (ReturnStmt ret _)) => ret
  | SubNode (StmtNode (IncDecStmt x _)) => ExprPos x
  | SubNode (StmtNode (DeclStmt (mkGenDecl tokpos _ _))) => tokpos
  | SubNode (StmtNode (OtherStmt pos _)) => pos
  | SubNode (ExprNode e) => ExprPos e
  end.

(** The nodes below a node, itself first, in the depth-first order of
    [ast.Inspect]. Nodes of kinds that no filter of the analyzer names
    and that have no constructor here (field lists, specs, the bare
    identifiers of a field or a selector) are not listed; their
    children are. *)
Fixpoint walkExpr (e : Expr) : list Sub :=
  ExprNode e ::
  match e with
  | IdentExpr _ => []
  | StarExpr _ x => walkExpr x
  | SelectorExpr x _ => walkExpr x
  | IndexExpr x i => walkExpr x ++ walkExpr i
  | BinaryExpr x _ y => walkExpr x ++ walkExpr y
  | CallExpr f args => walkExpr f ++ flat_map walkExpr args
  | ArrayType _ len elt =>
      match len with
      | Some l => walkExpr l
      | None => []
      end ++ walkExpr elt
  | FuncLit _ params results body =>
      flat_map walkField params ++ flat_map walkField results
      ++ flat_map walkStmt body
  | ParenExpr _ x => walkExpr x
  | OtherExpr _ children => flat_map walkSub children
  end
with walkField (f : Field) : list Sub :=
  match f with
  | mkField _ t => walkExpr t
  end
with walkStmt (s : Stmt) : list Sub :=
  StmtNode s ::
  match s with
  | ReturnStmt _ results => flat_map walkExpr results
  | AssignStmt lhs _ rhs => flat_map walkExpr lhs ++ flat_map walkExpr rhs
  | IncDecStmt x _ => walkExpr x
  | DeclStmt d => walkGenDecl d
  | OtherStmt _ children => flat_map walkSub children
  end
with walkGenDecl (d : GenDecl) : list Sub :=
  GenDeclNode d ::
  match d with
  | mkGenDecl _ _ specs => flat_map walkSpec specs
  end
with walkSpec (s : Spec) : list Sub :=
  match s with
  | ValueSpec _ t values =>
      match t with
      | Some t => walkExpr t
      | None => []
      end ++ flat_map walkExpr values
  | OtherSpec children => flat_map walkSub children
  end
with walkSub (n : Sub) : list Sub :=
  match n with
  | ExprNode e => walkExpr e
  | StmtNode s => walkStmt s
  | GenDeclNode d => walkGenDecl d
  end.

(** The nodes below a function declaration: receiver, parameters,
    results, body. *)
Definition walkFuncBody (fd : FuncDecl) : list Sub :=
  flat_map walkField (default [] (Recv fd))
  ++ flat_map walkField (FuncParams fd)
  ++ flat_map walkField (default [] (FuncResults fd))
  ++ flat_map walkStmt (default [] (FuncBody fd)).

Definition walkDecl (d : Decl) : list Node :=
  match d with
  | FuncDeclD fd => FuncDeclNode fd :: List.map SubNode (walkFuncBody fd)
  | GenDeclD gd => List.map SubNode (walkGenDecl gd)
  end.

Definition walkFile (f : File) : list Node := flat_map walkDecl (Decls f).

End ast.

(** ** The inspector *)

Module inspector.

(** The node types a filter can name. *)
Inductive Kind : Type :=
| FuncDecl | GenDecl | AssignStmt | IncDecStmt | ReturnStmt | BinaryExpr
| Other.

#[global] Instance Kind_eq_dec : EqDecision Kind.
Proof. solve_decision. Defined.

Definition kindOf (n : ast.Node) : Kind :=
  match n with
  | ast.FuncDeclNode _ => FuncDecl
  | ast.SubNode (ast.GenDeclNode _) => GenDecl
  | ast.SubNode (ast.StmtNode (ast.AssignStmt _ _ _)) => AssignStmt
  | ast.SubNode (ast.StmtNode (ast.IncDecStmt _ _)) => IncDecStmt
  | ast.SubNode (ast.StmtNode (ast.ReturnStmt _ _)) => ReturnStmt
  | ast.SubNode (ast.ExprNode (ast.BinaryExpr _ _ _)) => BinaryExpr
  | _ => Other
  end.

(** An inspector holds the nodes of all files of the pass, in
    depth-first order. *)
Definition Inspector : Type := list ast.Node.

Definition New (files : list ast.File) : Inspector :=
  flat_map ast.walkFile files.

(** [in.Preorder(types, f)]: [f] is called, in order, on every node
    whose type is in [types]; the variables [f] closes over are the
    state [S]. *)
Definition Preorder {S : Type} (ins : Inspector) (types : list Kind)
    (f : S -> ast.Node -> S) (s : S) : S :=
  fold_left f (List.filter (fun n => bool_decide (kindOf n ∈ types)) ins) s.

End inspector.

(** ** The pass, the configuration and the diagnostics *)

(** What the analyzer reads of an [analysis.Pass]. The type checker's
    tables are keyed by syntax node. *)
Record Pass : Type := mkPass {
  Files : list ast.File;
  FileName : token.Pos -> string;      (* pass.Fset.File(p).Name() *)
  Line : token.Pos -> Z;               (* pass.Fset.Position(p).Line *)
  Types : ast.Expr -> option types.Type_;   (* pass.TypesInfo.Types[e].Type *)
  Defs : ast.Ident -> option types.Object;  (* pass.TypesInfo.Defs[id] *)
  Uses : ast.Ident -> option types.Object   (* pass.TypesInfo.Uses[id] *)
}.

(** The package variables [threshold] and [excludePatterns]. *)
Record Config : Type := mkConfig {
  threshold : Z;
  excludePatterns : list string
}.

Definition DefaultThreshold : Z := 1024.

(** The three format strings of the analyzer's reports. *)
Inductive Format : Type :=
| ValueReceiverFmt      (* consider using value receiver: ... *)
| ValueReturnFmt        (* consider returning value instead of pointer: ... *)
| ValueSliceFmt.        (* consider using []T instead of []*T: ... *)

(** The qualifier the type name is printed with. *)
Inductive Qualifier : Type :=
| RelativeToPkg         (* types.RelativeTo(pass.Pkg) *)
| NoQualifier.          (* nil *)

(** One call of [pass.Reportf]: the position, the format and its
    arguments. *)
Record Diagnostic : Type := mkDiagnostic {
  DiagPos : token.Pos;
  DiagFormat : Format;
  DiagType : types.Type_;
  DiagQualifier : Qualifier;
  DiagSize : Z;
  DiagThreshold : Z
}.

Inductive PatternCategory : Type :=
| PointerReturn | PointerReceiver | PointerSequenceReturn
| PointerSequenceVariable.

#[global] Instance PatternCategory_eq_dec : EqDecision PatternCategory.
Proof. solve_decision. Defined.

(** The rule a diagnostic comes from, read off the report: the slice
    format is printed relative to the package by [checkSliceReturn] and
    unqualified by [checkGenDecl] and [checkAssignStmt]. *)
Definition category (d : Diagnostic) : PatternCategory :=
  match DiagFormat d, DiagQualifier d with
  | ValueReceiverFmt, _ => PointerReceiver
  | ValueReturnFmt, _ => PointerReturn
  | ValueSliceFmt, RelativeToPkg => PointerSequenceReturn
  | ValueSliceFmt, NoQualifier => PointerSequenceVariable
  end.

(** A Go map with [bool] values, read at a key: [false] when absent. *)
Definition get `{Countable K} (m : gmap K bool) (k : K) : bool :=
  default false (m !! k).

(** A [*ast.FuncDecl] used as a map key: the declaration's position
    stands for its address. *)
Definition funcKey (fn : ast.FuncDecl) : token.Pos := ast.FuncPos fn.

(** [isNil]: the expression is the identifier [nil]. *)
Definition isNil (expr : ast.Expr) : bool :=
  match expr with
  | ast.IdentExpr ident => String.eqb (ast.Name ident) "nil"
  | _ => false
  end.

(** ** The exemption trackers *)

(** The function [findNilReturns] hands to [Preorder]; the state is
    [result] and [currentFunc]. *)
Definition nilReturnsVisit
    (st : gmap token.Pos bool * option ast.FuncDecl) (n : ast.Node)
    : gmap token.Pos bool * option ast.FuncDecl :=
  let '(result, currentFunc) := st in
  match n with
  | ast.FuncDeclNode node => (result, Some node)
  | ast.SubNode (ast.StmtNode (ast.ReturnStmt _ results)) =>
      match currentFunc with
      | None => (result, currentFunc)
      | Some fn =>
          if existsb isNil results
          then (<[funcKey fn := true]> result, currentFunc)
          else (result, currentFunc)
      end
  | _ => (result, currentFunc)
  end.

(** [findNilReturns]. *)
Definition findNilReturns (inspect : inspector.Inspector) : gmap token.Pos bool :=
  fst (inspector.Preorder inspect [inspector.FuncDecl; inspector.ReturnStmt]
         nilReturnsVisit (∅, None)).

(** [refersToReceiver]. [receiverObj] may be [nil], and so may the
    entry of [Uses]. *)
Fixpoint refersToReceiver (pass : Pass) (expr : ast.Expr)
    (receiverObj : option types.Object) : bool :=
  match expr with
  | ast.IdentExpr e => bool_decide (Uses pass e = receiverObj)
  | ast.SelectorExpr x _ => refersToReceiver pass x receiverObj
  | ast.IndexExpr x _ => refersToReceiver pass x receiverObj
  | ast.StarExpr _ x => refersToReceiver pass x receiverObj
  | _ => false
  end.

(** The receiver object [findReceiverMutations] looks up at a function
    declaration. *)
Definition receiverOf (pass : Pass) (node : ast.FuncDecl) : option types.Object :=
  match ast.Recv node with
  | Some (recv :: _) =>
      match ast.FieldNames recv with
      | name :: _ => Defs pass name
      | [] => None
      end
  | _ => None
  end.

(** The function [findReceiverMutations] hands to [Preorder]; the state
    is [result], [currentFunc] and [receiverObj]. *)
Definition receiverMutationsVisit (pass : Pass)
    (st : gmap token.Pos bool * (option ast.FuncDecl * option types.Object))
    (n : ast.Node)
    : gmap token.Pos bool * (option ast.FuncDecl * option types.Object) :=
  let '(result, (currentFunc, receiverObj)) := st in
  match n with
  | ast.FuncDeclNode node => (result, (Some node, receiverOf pass node))
  | ast.SubNode (ast.StmtNode (ast.AssignStmt lhs _ _)) =>
      match currentFunc, receiverObj with
      | Some fn, Some _ =>
          if existsb (fun e => refersToReceiver pass e receiverObj) lhs
          then (<[funcKey fn := true]> result, (currentFunc, receiverObj))
          else (result, (currentFunc, receiverObj))
      | _, _ => (result, (currentFunc, receiverObj))
      end
  | ast.SubNode (ast.StmtNode (ast.IncDecStmt x _)) =>
      match currentFunc, receiverObj with
      | Some fn, Some _ =>
          if refersToReceiver pass x receiverObj
          then (<[funcKey fn := true]> result, (currentFunc, receiverObj))
          else (result, (currentFunc, receiverObj))
      | _, _ => (result, (currentFunc, receiverObj))
      end
  | _ => (result, (currentFunc, receiverObj))
  end.

(** [findReceiverMutations]. *)
Definition findReceiverMutations (pass : Pass) (inspect : inspector.Inspector)
    : gmap token.Pos bool :=
  fst (inspector.Preorder inspect
         [inspector.FuncDecl; inspector.AssignStmt; inspector.IncDecStmt]
         (receiverMutationsVisit pass) (∅, (None, None))).

(** The inner tests of [findNilUsages]: [e] is [ident[...]] and the
    parser resolved [ident]; the key recorded is the position of its
    declaration. *)
Definition indexedObject (e : ast.Expr) : option token.Pos :=
  match e with
  | ast.IndexExpr (ast.IdentExpr ident) _ =>
      match ast.Obj ident with
      | Some obj => Some (ast.ObjPos obj)
      | None => None
      end
  | _ => None
  end.

Definition record (key : option token.Pos) (result : gmap token.Pos bool)
    : gmap token.Pos bool :=
  match key with
  | Some pos => <[pos := true]> result
  | None => result
  end.

(** The loop of [findNilUsages] over the left-hand sides, with the
    right-hand sides from index [i] on. *)
Fixpoint nilAssigned (lhs rhs : list ast.Expr) (result : gmap token.Pos bool)
    : gmap token.Pos bool :=
  match lhs with
  | [] => result
  | l :: lhs' =>
      let result :=
        match l, rhs with
        | ast.IndexExpr _ _, r :: _ =>
            if isNil r then record (indexedObject l) result else result
        | _, _ => result
        end in
      nilAssigned lhs' (tail rhs) result
  end.

(** The function [findNilUsages] hands to [Preorder]. *)
Definition nilUsagesVisit (result : gmap token.Pos bool) (n : ast.Node)
    : gmap token.Pos bool :=
  match n with
  | ast.SubNode (ast.ExprNode (ast.BinaryExpr x op y)) =>
      if bool_decide (op = token.EQL) || bool_decide (op = token.NEQ) then
        let result :=
          if isNil y then record (indexedObject x) result else result in
        if isNil x then record (indexedObject y) result else result
      else result
  | ast.SubNode (ast.StmtNode (ast.AssignStmt lhs _ rhs)) =>
      nilAssigned lhs rhs result
  | _ => result
  end.

(** [findNilUsages]. *)
Definition findNilUsages (inspect : inspector.Inspector) : gmap token.Pos bool :=
  inspector.Preorder inspect [inspector.BinaryExpr; inspector.AssignStmt]
    nilUsagesVisit ∅.

(** ** The rules *)

Section Rules.
Variable cfg : Config.
Variable pass : Pass.

(** [checkMethodReceiver]; called with a non-empty receiver list. *)
Definition checkMethodReceiver (fn : ast.FuncDecl)
    (receiverMutations : gmap token.Pos bool) : list Diagnostic :=
  match ast.Recv fn with
  | Some (recv :: _) =>
      match ast.FieldType recv with
      | ast.StarExpr _ x =>
          if get receiverMutations (funcKey fn) then []
          else match Types pass x with
               | None => []
               | Some t =>
                   let size := sizeOf t in
                   if size >? threshold cfg then []
                   else [mkDiagnostic (ast.FuncPos fn) ValueReceiverFmt t
                           RelativeToPkg size (threshold cfg)]
               end
      | _ => []
      end
  | _ => []
  end.

(** [checkPointerReturn], for a result of type [*X] written at [star]. *)
Definition checkPointerReturn (fn : ast.FuncDecl) (star : token.Pos)
    (x : ast.Expr) (nilReturns : gmap token.Pos bool) : list Diagnostic :=
  if get nilReturns (funcKey fn) then []
  else match Types pass x with
       | None => []
       | Some t =>
           if negb (types.isStruct (types.Underlying t)) then []
           else
             let size := sizeOf t in
             if size >? threshold cfg then []
             else [mkDiagnostic star ValueReturnFmt t RelativeToPkg size
                     (threshold cfg)]
       end.

(** [checkSliceReturn], for a result of array type [arr]. *)
Definition checkSliceReturn (fn : ast.FuncDecl) (lbrack : token.Pos)
    (len : option ast.Expr) (elt : ast.Expr)
    (nilReturns : gmap token.Pos bool) : list Diagnostic :=
  match len with
  | Some _ => []
  | None =>
      match elt with
      | ast.StarExpr _ x =>
          if get nilReturns (funcKey fn) then []
          else match Types pass x with
               | None => []
               | Some t =>
                   if negb (types.isStruct (types.Underlying t)) then []
                   else
                     let size := sizeOf t in
                     if size >? threshold cfg then []
                     else [mkDiagnostic lbrack ValueSliceFmt t RelativeToPkg
                             size (threshold cfg)]
               end
      | _ => []
      end
  end.

(** The body of the loop of [checkReturnType], for one entry of the
    result list. *)
Definition checkResult (fn : ast.FuncDecl) (nilReturns : gmap token.Pos bool)
    (result : ast.Field) : list Diagnostic :=
  match ast.FieldType result with
  | ast.StarExpr star x => checkPointerReturn fn star x nilReturns
  | ast.ArrayType lbrack len elt => checkSliceReturn fn lbrack len elt nilReturns
  | _ => []
  end.

(** [checkReturnType]; called with a result list. *)
Definition checkReturnType (fn : ast.FuncDecl)
    (nilReturns : gmap token.Pos bool) : list Diagnostic :=
  flat_map (checkResult fn nilReturns) (default [] (ast.FuncResults fn)).

(** [checkFuncDecl]. *)
Definition checkFuncDecl (fn : ast.FuncDecl)
    (nilReturns receiverMutations : gmap token.Pos bool) : list Diagnostic :=
  match ast.Recv fn with
  | Some (_ :: _) => checkMethodReceiver fn receiverMutations
  | _ => []
  end
  ++
  match ast.FuncResults fn with
  | Some _ => checkReturnType fn nilReturns
  | None => []
  end.

(** The report shared by [checkGenDecl] and [checkAssignStmt], from
    the lookup of the element type on. *)
Definition reportSlice (lbrack : token.Pos) (x : ast.Expr) : list Diagnostic :=
  match Types pass x with
  | None => []
  | Some t =>
      if negb (types.isStruct (types.Underlying t)) then []
      else
        let size := sizeOf t in
        if size >? threshold cfg then []
        else [mkDiagnostic lbrack ValueSliceFmt t NoQualifier size
                (threshold cfg)]
  end.

(** The test [hasNilUsage] of [checkGenDecl]: one of the declared names
    has an object whose position is recorded. *)
Definition hasNilUsage (names : list ast.Ident)
    (nilUsages : gmap token.Pos bool) : bool :=
  existsb (fun name =>
             match Defs pass name with
             | Some obj => get nilUsages (types.ObjPos obj)
             | None => false
             end) names.

(** The body of the loop of [checkGenDecl], for one spec. *)
Definition checkSpec (nilUsages : gmap token.Pos bool) (spec : ast.Spec)
    : list Diagnostic :=
  match spec with
  | ast.ValueSpec names (Some (ast.ArrayType lbrack None (ast.StarExpr _ x))) _ =>
      if hasNilUsage names nilUsages then []
      else reportSlice lbrack x
  | _ => []
  end.

(** [checkGenDecl]. *)
Definition checkGenDecl (decl : ast.GenDecl) (nilUsages : gmap token.Pos bool)
    : list Diagnostic :=
  match decl with
  | ast.mkGenDecl _ tok specs =>
      if bool_decide (tok = token.VAR)
      then flat_map (checkSpec nilUsages) specs
      else []
  end.

(** The test of [checkAssignStmt] on the left-hand side at the index of
    the right-hand side, if there is one: it is an identifier that
    defines an object whose position is recorded. *)
Definition lhsNilUsage (lhs : option ast.Expr)
    (nilUsages : gmap token.Pos bool) : bool :=
  match lhs with
  | Some (ast.IdentExpr ident) =>
      match Defs pass ident with
      | Some obj => get nilUsages (types.ObjPos obj)
      | None => false
      end
  | _ => false
  end.

(** The body of the loop of [checkAssignStmt], for the right-hand side
    [rhs] and the left-hand side at the same index, if there is one. *)
Definition checkRhs (nilUsages : gmap token.Pos bool)
    (lhs : option ast.Expr) (rhs : ast.Expr) : list Diagnostic :=
  match rhs with
  | ast.CallExpr (ast.IdentExpr ident)
      (ast.ArrayType lbrack None (ast.StarExpr _ x) :: _) =>
      if negb (String.eqb (ast.Name ident) "make") then []
      else if lhsNilUsage lhs nilUsages then []
      else reportSlice lbrack x
  | _ => []
  end.

(** The loop of [checkAssignStmt] from index [i] on: [lhs] are the
    left-hand sides from [i] on. *)
Fixpoint checkRhsFrom (nilUsages : gmap token.Pos bool)
    (lhs rhs : list ast.Expr) : list Diagnostic :=
  match rhs with
  | [] => []
  | r :: rhs' =>
      checkRhs nilUsages (head lhs) r
      ++ checkRhsFrom nilUsages (tail lhs) rhs'
  end.

(** [checkAssignStmt]. *)
Definition checkAssignStmt (lhs : list ast.Expr) (tok : token.Token)
    (rhs : list ast.Expr) (nilUsages : gmap token.Pos bool) : list Diagnostic :=
  if bool_decide (tok = token.DEFINE)
  then checkRhsFrom nilUsages lhs rhs
  else [].

End Rules.

(** ** Suppression comments *)

Section Analyzer.
Context `{GoStdlib}.

(** [isNolintComment]: the text is the comment without its markers and
    surrounding white space. The first block returns [true] for a
    blanket [nolint] and for a [nolint:] list naming [pointless]; in
    every other case control reaches the [pointless:ignore] test. *)
Definition isNolintComment (text : string) : bool :=
  let nolint :=
    if Strings.HasPrefix text "nolint" then
      let rest := Strings.TrimPrefix text "nolint" in
      match rest with
      | EmptyString => true
      | String c _ =>
          if Ascii.eqb c " " || Ascii.eqb c "009" then true
          else if Ascii.eqb c ":" then
            let linters := Strings.TrimPrefix rest ":" in
            existsb (fun l => String.eqb (TrimSpace l) "pointless")
                    (Strings.Split linters ",")
          else false
      end
    else false in
  if nolint then true
  else Strings.HasPrefix text "pointless:ignore".

(** The comment text without its [//] or [/* */] markers. *)
Definition stripMarkers (text : string) : string :=
  if Strings.HasPrefix text "//" then Strings.TrimPrefix text "//"
  else if Strings.HasPrefix text "/*"
       then Strings.TrimSuffix (Strings.TrimPrefix text "/*") "*/"
       else text.

(** The body of the loops of [buildNolintMap], for one comment. Line
    numbers are far below the range of [int]: [line+1] does not wrap. *)
Definition markComment (pass : Pass) (result : gmap Z bool) (c : ast.Comment)
    : gmap Z bool :=
  let text := TrimSpace (stripMarkers (ast.Text c)) in
  if isNolintComment text then
    let line := Line pass (ast.Slash c) in
    <[line + 1 := true]> (<[line := true]> result)
  else result.

(** [buildNolintMap]. *)
Definition buildNolintMap (pass : Pass) : gmap Z bool :=
  fold_left
    (fun result f =>
       fold_left (fun result cg => fold_left (markComment pass) cg result)
                 (ast.Comments f) result)
    (Files pass) ∅.

(** ** File exclusion *)

(** [shouldExclude]. *)
Definition shouldExclude (path : string) (patterns : list string) : bool :=
  existsb (fun pattern =>
             filepath_Match pattern path
             || filepath_Match pattern (filepath_Base path))
          patterns.

(** The set [excludedFiles] that [run] builds first. *)
Definition excludedFilesOf (cfg : Config) (pass : Pass) : gmap string bool :=
  let patterns := excludePatterns cfg in
  if (0 <? length patterns)%nat then
    fold_left
      (fun excluded f =>
         let filename := FileName pass (ast.Package f) in
         if shouldExclude filename patterns
         then <[filename := true]> excluded
         else excluded)
      (Files pass) ∅
  else ∅.

(** ** The driver *)

(** The function [run] hands to [Preorder], as the diagnostics it
    reports for the node [n]. *)
Definition visit (cfg : Config) (pass : Pass)
    (excludedFiles : gmap string bool) (nolintLines : gmap Z bool)
    (nilReturns receiverMutations nilUsages : gmap token.Pos bool)
    (n : ast.Node) : list Diagnostic :=
  let filename := FileName pass (ast.NodePos n) in
  if get excludedFiles filename then []
  else
    let line := Line pass (ast.NodePos n) in
    if get nolintLines line then []
    else match n with
         | ast.FuncDeclNode node =>
             checkFuncDecl cfg pass node nilReturns receiverMutations
         | ast.SubNode (ast.GenDeclNode node) =>
             checkGenDecl cfg pass node nilUsages
         | ast.SubNode (ast.StmtNode (ast.AssignStmt lhs tok rhs)) =>
             checkAssignStmt cfg pass lhs tok rhs nilUsages
         | _ => []
         end.

(** [run]: the diagnostics of a pass, in the order they are reported. *)
Definition run (cfg : Config) (pass : Pass) : list Diagnostic :=
  let ispct := inspector.New (Files pass) in
  let excludedFiles := excludedFilesOf cfg pass in
  let nolintLines := buildNolintMap pass in
  let nilReturns := findNilReturns ispct in
  let receiverMutations := findReceiverMutations pass ispct in
  let nilUsages := findNilUsages ispct in
  inspector.Preorder ispct
    [inspector.FuncDecl; inspector.GenDecl; inspector.AssignStmt]
    (fun diags n =>
       (diags ++ visit cfg pass excludedFiles nolintLines nilReturns
                       receiverMutations nilUsages n)%list)
    [].

End Analyzer.


(** ** The configuration file and the command line

    [config/config.go] and the command's [main]. The operating system,
    the YAML decoder and the formatting functions are an interface: the
    working directory, which files exist and what they hold are whatever
    the system says. *)

Module config.

Record Config : Type := mkConfig {
  Threshold : Z;              (* yaml: threshold *)
  Exclude : list string       (* yaml: exclude *)
}.

(** [DefaultConfig]. *)
Definition DefaultConfig : Config := mkConfig 1024 [].

(** [os_Stat] tells whether [os.Stat] returned no error;
    [yaml_Unmarshal data cfg] is the configuration [yaml.Unmarshal]
    leaves in [cfg], and its error; [fmt_Errorf context err] is
    [fmt.Errorf(context + ": %w", err)]. *)
Class System := {
  error : Type;
  fmt_Errorf : string -> error -> error;
  os_Getwd : sum string error;
  os_Stat : string -> bool;
  os_ReadFile : string -> sum string error;
  filepath_Join : string -> string -> string;
  filepath_Dir : string -> string;
  yaml_Unmarshal : string -> Config -> Config * option error;
  strconv_Itoa : Z -> string
}.

Section Files.
Context `{GoStdlib} `{System}.

(** The two probes [findConfigFile] makes in one directory: the path
    of [.pointless.yaml] if it exists, else of [.pointless.yml] if that
    exists. *)
Definition configIn (dir : string) : option string :=
  let path := filepath_Join dir ".pointless.yaml" in
  if os_Stat path then Some path
  else
    let path := filepath_Join dir ".pointless.yml" in
    if os_Stat path then Some path else None.

(** The loop of [findConfigFile], from the directory [dir]. The loop
    ends when a directory is its own parent; [fuel] bounds the number of
    directories visited, [None] means the bound was reached. *)
Fixpoint findConfigFileFrom (fuel : nat) (dir : string) : option string :=
  match fuel with
  | O => None
  | S fuel =>
      match configIn dir with
      | Some path => Some path
      | None =>
          let parent := filepath_Dir dir in
          if String.eqb parent dir then Some EmptyString
          else findConfigFileFrom fuel parent
      end
  end.

(** [findConfigFile] of [config/config.go]: the path, empty when there
    is no file, and the error of [os.Getwd]. *)
Definition findConfigFile (fuel : nat) : option (string * option error) :=
  match os_Getwd with
  | inr err => Some (EmptyString, Some err)
  | inl dir =>
      match findConfigFileFrom fuel dir with
      | Some path => Some (path, None)
      | None => None
      end
  end.

(** [Load] of [config/config.go]. *)
Definition Load (fuel : nat) : option (Config * option error) :=
  let cfg := DefaultConfig in
  match findConfigFile fuel with
  | None => None
  | Some (path, Some err) => Some (cfg, None)
  | Some (path, None) =>
      if String.eqb path EmptyString then Some (cfg, None)
      else
        match os_ReadFile path with
        | inr err => Some (cfg, Some err)
        | inl data =>
            match yaml_Unmarshal data cfg with
            | (cfg, Some err) => Some (cfg, Some err)
            | (cfg, None) => Some (cfg, None)
            end
        end
  end.

(** [findConfigFile] and [Load] of the package's second copy, which
    wraps every error. *)
Definition findConfigFileWrapped (fuel : nat) : option (string * option error) :=
  match os_Getwd with
  | inr err => Some (EmptyString, Some (fmt_Errorf "getting working directory" err))
  | inl dir =>
      match findConfigFileFrom fuel dir with
      | Some path => Some (path, None)
      | None => None
      end
  end.

Definition LoadWrapped (fuel : nat) : option (Config * option error) :=
  let cfg := DefaultConfig in
  match findConfigFileWrapped fuel with
  | None => None
  | Some (path, Some err) => Some (cfg, Some (fmt_Errorf "finding config file" err))
  | Some (path, None) =>
      if String.eqb path EmptyString then Some (cfg, None)
      else
        match os_ReadFile path with
        | inr err => Some (cfg, Some (fmt_Errorf "reading config file" err))
        | inl data =>
            match yaml_Unmarshal data cfg with
            | (cfg, Some err) => Some (cfg, Some (fmt_Errorf "parsing config file" err))
            | (cfg, None) => Some (cfg, None)
            end
        end
  end.

(** The loop of [Config.ShouldExclude]. *)
Fixpoint ShouldExcludeAny (patterns : list string) (path : string) : bool :=
  match patterns with
  | [] => false
  | pattern :: patterns =>
      if filepath_Match pattern path then true
      else if filepath_Match pattern (filepath_Base path) then true
      else ShouldExcludeAny patterns path
  end.

(** [Config.ShouldExclude]. *)
Definition ShouldExclude (c : Config) (path : string) : bool :=
  ShouldExcludeAny (Exclude c) path.

End Files.

End config.

Section Command.
Context `{config.System}.

(** The test of [main] on one argument: it is [-threshold], or it is
    longer than 10 bytes and its first 11 bytes are [-threshold=]. *)
Definition isThresholdFlag (arg : string) : bool :=
  String.eqb arg "-threshold"
  || ((10 <? String.length arg)%nat
      && String.eqb (Strings.take 11 arg) "-threshold=").

(** The arguments [main] leaves in [os.Args] for the flag parser, from
    the loaded configuration and the arguments of the process. [None]
    is the panic of [os.Args[1:]] on an empty argument list. *)
Definition injectThreshold (cfg : config.Config) (osArgs : list string)
    : option (list string) :=
  if config.Threshold cfg >? 0 then
    match osArgs with
    | [] => None
    | program :: args =>
        if existsb isThresholdFlag args then Some osArgs
        else Some (program
                   :: ("-threshold=" +:+ config.strconv_Itoa (config.Threshold cfg))
                   :: args)
    end
  else Some osArgs.

End Command.

(** ** Notions the properties are stated with *)


(** [fn] is a function declaration of a file of the pass. *)
Definition declaredIn (pass : Pass) (fn : ast.FuncDecl) : Prop :=
  exists f, In f (Files pass) /\ In (ast.FuncDeclD fn) (ast.Decls f).

(** The nodes of a statement list. *)
Definition nodesOf (body : list ast.Stmt) : list ast.Sub :=
  flat_map ast.walkStmt body.

(** Some node of the list is a return statement with [nil] as an
    operand of its result list. *)
Definition returnsNil (nodes : list ast.Sub) : bool :=
  existsb (fun n =>
             match n with
             | ast.StmtNode (ast.ReturnStmt _ results) => existsb isNil results
             | _ => false
             end) nodes.





(** The comment matches, as [buildNolintMap] tests it. *)
Definition suppresses `{GoStdlib} (c : ast.Comment) : bool :=
  isNolintComment (TrimSpace (stripMarkers (ast.Text c))).


(** In the words of the specification: the expression resolves, through
    a chain of field-access, index and dereference steps, to an
    identifier that the type checker binds to [obj]. A dereference step
    that a field-access or index step follows is written in parentheses
    in Go, as in [s] dereferenced and then [.Age]; the parentheses
    belong to the chain. *)
Inductive resolvesTo (pass : Pass) (obj : types.Object) : ast.Expr -> Prop :=
| resolves_ident id :
    Uses pass id = Some obj -> resolvesTo pass obj (ast.IdentExpr id)
| resolves_field x sel :
    resolvesTo pass obj x -> resolvesTo pass obj (ast.SelectorExpr x sel)
| resolves_index x i :
    resolvesTo pass obj x -> resolvesTo pass obj (ast.IndexExpr x i)
| resolves_deref star x :
    resolvesTo pass obj x -> resolvesTo pass obj (ast.StarExpr star x)
| resolves_paren lparen x :
    resolvesTo pass obj x -> resolvesTo pass obj (ast.ParenExpr lparen x).


(** Some node of the list assigns to, increments or decrements an
    expression that [target] holds of. *)
Definition changes (target : ast.Expr -> Prop) (nodes : list ast.Sub) : Prop :=
  (exists lhs tok rhs e,
      In (ast.StmtNode (ast.AssignStmt lhs tok rhs)) nodes
      /\ In e lhs /\ target e)
  \/ (exists x tok,
        In (ast.StmtNode (ast.IncDecStmt x tok)) nodes
        /\ target x).

(** In the words of the specification: some node of the list assigns
    to, increments or decrements an expression that resolves to [obj]. *)
Definition mutates (pass : Pass) (obj : types.Object) (nodes : list ast.Sub)
    : Prop :=
  changes (resolvesTo pass obj) nodes.


(** The test [findReceiverMutations] makes at one node. *)
Definition mutatesAt (pass : Pass) (receiverObj : option types.Object)
    (n : ast.Sub) : bool :=
  match n with
  | ast.StmtNode (ast.AssignStmt lhs _ _) =>
      existsb (fun e => refersToReceiver pass e receiverObj) lhs
  | ast.StmtNode (ast.IncDecStmt x _) => refersToReceiver pass x receiverObj
  | _ => false
  end.


(** In the words of the specification: the node compares [v[i]] with
    [nil] for equality or inequality, on either side, or assigns [nil]
    to [v[i]]. *)
Inductive nilUse (v : ast.Ident) : ast.Node -> Prop :=
| nilUse_left i op y :
    op = token.EQL \/ op = token.NEQ ->
    isNil y = true ->
    nilUse v (ast.SubNode (ast.ExprNode
                (ast.BinaryExpr (ast.IndexExpr (ast.IdentExpr v) i) op y)))
| nilUse_right x op i :
    op = token.EQL \/ op = token.NEQ ->
    isNil x = true ->
    nilUse v (ast.SubNode (ast.ExprNode
                (ast.BinaryExpr x op (ast.IndexExpr (ast.IdentExpr v) i))))
| nilUse_assign (lhs rhs : list ast.Expr) tok (n : nat) i r :
    lhs !! n = Some (ast.IndexExpr (ast.IdentExpr v) i) ->
    rhs !! n = Some r ->
    isNil r = true ->
    nilUse v (ast.SubNode (ast.StmtNode (ast.AssignStmt lhs tok rhs))).

(** A list of nodes that holds, with every node, the nodes below it. *)
Definition closed (w : list ast.Sub) : Prop :=
  forall m, In m w -> forall k, In k (ast.walkSub m) -> In k w.


(** The function declaration last visited in a prefix of the
    inspector's nodes: what [currentFunc] holds after it. *)
Definition currentFunc (pre : list ast.Node) : option ast.FuncDecl :=
  fold_left (fun cur n =>
               match n with
               | ast.FuncDeclNode fd => Some fd
               | _ => cur
               end) pre None.

(** The same report under another threshold. *)
Definition withThreshold (limit : Z) (d : Diagnostic) : Diagnostic :=
  mkDiagnostic (DiagPos d) (DiagFormat d) (DiagType d) (DiagQualifier d)
    (DiagSize d) limit.

(** What a report says is what was measured: the threshold is the
    configured one, the size is that of the type and does not exceed the
    threshold, and under every rule but PointerReceiver the type is a
    struct. *)
Definition justified (cfg : Config) (d : Diagnostic) : Prop :=
  DiagThreshold d = threshold cfg
  /\ DiagSize d = sizeOf (DiagType d)
  /\ DiagSize d <= threshold cfg
  /\ (category d <> PointerReceiver ->
      types.isStruct (types.Underlying (DiagType d)) = true).

(** The [k]-th directory [findConfigFile] looks into, from [dir]. *)
Fixpoint ancestor `{config.System} (k : nat) (dir : string) : string :=
  match k with
  | O => dir
  | S k => ancestor k (config.filepath_Dir dir)
  end.


(** ** A sample package

    The declarations of the repository's test package
    [testdata/src/a/a.go], and a few more of the same shape. A position
    is [1000 * line + column]. *)

Module Sample.

(** An instance of the library interface for text in ASCII: white space
    is trimmed at both ends, a pattern is made of literal bytes, [?] and
    [*] (neither of which matches a slash), and the base name is what
    follows the last slash. *)
Definition isSpace (c : ascii) : bool :=
  existsb (Ascii.eqb c) ["009"; "010"; "011"; "012"; "013"; " "]%char.

Fixpoint trimLeft (s : string) : string :=
  match s with
  | String c s' => if isSpace c then trimLeft s' else s
  | EmptyString => EmptyString
  end.

Fixpoint trimRight (s : string) : string :=
  match s with
  | String c s' =>
      match trimRight s' with
      | EmptyString => if isSpace c then EmptyString else String c EmptyString
      | rest => String c rest
      end
  | EmptyString => EmptyString
  end.

Fixpoint glob (pattern : string) : string -> bool :=
  match pattern with
  | EmptyString =>
      fun name => match name with EmptyString => true | _ => false end
  | String "*" pattern' =>
      fix star (name : string) : bool :=
        glob pattern' name
        || match name with
           | String c name' => negb (Ascii.eqb c "/") && star name'
           | EmptyString => false
           end
  | String "?" pattern' =>
      fun name =>
        match name with
        | String c name' => negb (Ascii.eqb c "/") && glob pattern' name'
        | EmptyString => false
        end
  | String p pattern' =>
      fun name =>
        match name with
        | String c name' => Ascii.eqb p c && glob pattern' name'
        | EmptyString => false
        end
  end.

Fixpoint base (path : string) : string :=
  match path with
  | String c path' =>
      if existsb (Ascii.eqb "/") (list_ascii_of_string path')
      then base path'
      else if Ascii.eqb c "/" then path' else path
  | EmptyString => EmptyString
  end.

#[local] Instance asciiText : GoStdlib := {
  TrimSpace s := trimRight (trimLeft s);
  filepath_Match := glob;
  filepath_Base := base
}.

Definition at_ (line col : Z) : token.Pos := 1000 * line + col.

(** An identifier the parser resolved to the declaration at [decl], and
    one it left unresolved. *)
Definition var (pos : token.Pos) (name : string) (decl : token.Pos) : ast.Ident :=
  ast.mkIdent pos name (Some (ast.mkObject name decl)).

Definition free (pos : token.Pos) (name : string) : ast.Ident :=
  ast.mkIdent pos name None.

Definition SmallStruct : types.Type_ :=
  types.Named "SmallStruct"
    (types.Struct [types.Basic types.Kint64; types.Basic types.Kstring;
                   types.Basic types.Kint32; types.Basic types.Kbool]).

Definition LargeStruct : types.Type_ :=
  types.Named "LargeStruct"
    (types.Struct [types.Array 512 (types.Basic types.Kuint8);
                   types.Array 512 (types.Basic types.Kuint8);
                   types.Array 512 (types.Basic types.Kuint8)]).

(** The type checker's tables: a type name denotes its type; an
    identifier at its own declaration defines an object, any other
    resolved identifier uses the object declared there. *)
Definition typeOf (e : ast.Expr) : option types.Type_ :=
  match e with
  | ast.IdentExpr id =>
      if String.eqb (ast.Name id) "SmallStruct" then Some SmallStruct
      else if String.eqb (ast.Name id) "LargeStruct" then Some LargeStruct
      else None
  | _ => None
  end.

Definition objectAt (name : string) (decl : token.Pos) : types.Object :=
  types.mkObject (Z.to_nat decl) name decl.

Definition defOf (id : ast.Ident) : option types.Object :=
  match ast.Obj id with
  | Some o =>
      if ast.ObjPos o =? ast.NamePos id
      then Some (objectAt (ast.Name id) (ast.NamePos id))
      else None
  | None => None
  end.

Definition useOf (id : ast.Ident) : option types.Object :=
  match ast.Obj id with
  | Some o =>
      if ast.ObjPos o =? ast.NamePos id then None
      else Some (objectAt (ast.Name id) (ast.ObjPos o))
  | None => None
  end.

Definition package (name : string) (files : list ast.File) : Pass :=
  mkPass files (fun _ => name) (fun pos => pos / 1000) typeOf defOf useOf.

(** [*T] and [[]*T] written at [pos]. *)
Definition ptr (pos : token.Pos) (T : string) : ast.Expr :=
  ast.StarExpr pos (ast.IdentExpr (free (pos + 1) T)).

Definition ptrSlice (pos : token.Pos) (T : string) : ast.Expr :=
  ast.ArrayType pos None (ptr (pos + 2) T).

(** [&T{}] and [[]*T{}] written at [pos]: a unary expression and
    composite literals. *)
Definition newOf (pos : token.Pos) (T : string) : ast.Expr :=
  ast.OtherExpr pos
    [ast.ExprNode (ast.OtherExpr (pos + 1)
                     [ast.ExprNode (ast.IdentExpr (free (pos + 1) T))])].

Definition nil_ (pos : token.Pos) : ast.Expr := ast.IdentExpr (free pos "nil").

Definition func (line : Z) (name : string) (results : list ast.Expr)
    (body : list ast.Stmt) : ast.FuncDecl :=
  ast.mkFuncDecl None (free (at_ line 6) name) (at_ line 1) []
    (match results with
     | [] => None
     | _ => Some (List.map (ast.mkField []) results)
     end)
    (Some body).

Definition method (line : Z) (recv : string) (T : string) (name : string)
    (results : list ast.Expr) (body : list ast.Stmt) : ast.FuncDecl :=
  ast.mkFuncDecl
    (Some [ast.mkField [var (at_ line 7) recv (at_ line 7)] (ptr (at_ line 9) T)])
    (free (at_ line 22) name) (at_ line 1) []
    (match results with
     | [] => None
     | _ => Some (List.map (ast.mkField []) results)
     end)
    (Some body).

(** [func GetSmallStruct() *SmallStruct { return &SmallStruct{} }] *)
Definition GetSmallStruct : ast.FuncDecl :=
  func 20 "GetSmallStruct" [ptr (at_ 20 23) "SmallStruct"]
    [ast.ReturnStmt (at_ 21 2) [newOf (at_ 21 9) "SmallStruct"]].

(** [func FindSmallStruct(id int) *SmallStruct {
       if id == 0 { return nil }; return &SmallStruct{ID: int64(id)} }] *)
Definition FindSmallStruct : ast.FuncDecl :=
  func 25 "FindSmallStruct" [ptr (at_ 25 29) "SmallStruct"]
    [ast.OtherStmt (at_ 26 2)
       [ast.ExprNode (ast.BinaryExpr (ast.IdentExpr (var (at_ 26 5) "id" (at_ 25 22)))
                        token.EQL (ast.OtherExpr (at_ 26 11) []));
        ast.StmtNode (ast.OtherStmt (at_ 26 13)
                        [ast.StmtNode (ast.ReturnStmt (at_ 27 3) [nil_ (at_ 27 10)])])];
     ast.ReturnStmt (at_ 29 2) [newOf (at_ 29 9) "SmallStruct"]].

(** [func GetLargeStruct() *LargeStruct { return &LargeStruct{} }] *)
Definition GetLargeStruct : ast.FuncDecl :=
  func 33 "GetLargeStruct" [ptr (at_ 33 23) "LargeStruct"]
    [ast.ReturnStmt (at_ 34 2) [newOf (at_ 34 9) "LargeStruct"]].

(** [func GetSmallStructs() []*SmallStruct { return []*SmallStruct{} }] *)
Definition GetSmallStructs : ast.FuncDecl :=
  func 39 "GetSmallStructs" [ptrSlice (at_ 39 24) "SmallStruct"]
    [ast.ReturnStmt (at_ 40 2)
       [ast.OtherExpr (at_ 40 9) [ast.ExprNode (ptrSlice (at_ 40 9) "SmallStruct")]]].

(** [func (s *SmallStruct) FullName() string { return s.Name }] *)
Definition FullName : ast.FuncDecl :=
  method 50 "s" "SmallStruct" "FullName" [ast.IdentExpr (free (at_ 50 33) "string")]
    [ast.ReturnStmt (at_ 51 2)
       [ast.SelectorExpr (ast.IdentExpr (var (at_ 51 9) "s" (at_ 50 7)))
                         (free (at_ 51 11) "Name")]].

(** [func (s *SmallStruct) SetName(name string) { s.Name = name }] *)
Definition SetName : ast.FuncDecl :=
  method 55 "s" "SmallStruct" "SetName" []
    [ast.AssignStmt
       [ast.SelectorExpr (ast.IdentExpr (var (at_ 56 2) "s" (at_ 55 7)))
                         (free (at_ 56 4) "Name")]
       token.ASSIGN
       [ast.IdentExpr (var (at_ 56 11) "name" (at_ 55 32))]].

(** [func (s *SmallStruct) IncrementAge() { s.Age++ }] *)
Definition IncrementAge : ast.FuncDecl :=
  method 60 "s" "SmallStruct" "IncrementAge" []
    [ast.IncDecStmt
       (ast.SelectorExpr (ast.IdentExpr (var (at_ 61 2) "s" (at_ 60 7)))
                         (free (at_ 61 4) "Age"))
       token.INC].

(** [var <name> []*T] as a statement at [line]. *)
Definition varSlice (line : Z) (name T : string) : ast.Stmt :=
  ast.DeclStmt
    (ast.mkGenDecl (at_ line 2) token.VAR
       [ast.ValueSpec [var (at_ line 6) name (at_ line 6)]
                      (Some (ptrSlice (at_ line 12) T)) []]).

(** [<name> := make([]*T, 10)] at [line]. *)
Definition makeSliceStmt (line : Z) (name T : string) : ast.Stmt :=
  ast.AssignStmt [ast.IdentExpr (var (at_ line 2) name (at_ line 2))]
    token.DEFINE
    [ast.CallExpr (ast.IdentExpr (free (at_ line 11) "make"))
       [ptrSlice (at_ line 16) T; ast.OtherExpr (at_ line 31) []]].

(** [_ = <name>] at [line]. *)
Definition blankUse (line : Z) (name : string) (decl : token.Pos) : ast.Stmt :=
  ast.AssignStmt [ast.IdentExpr (free (at_ line 2) "_")] token.ASSIGN
    [ast.IdentExpr (var (at_ line 6) name decl)].

Definition variableDeclarations : ast.FuncDecl :=
  func 71 "variableDeclarations" []
    [varSlice 72 "items" "SmallStruct"; blankUse 73 "items" (at_ 72 6);
     varSlice 76 "largeItems" "LargeStruct"; blankUse 77 "largeItems" (at_ 76 6)].

Definition makeSlice : ast.FuncDecl :=
  func 80 "makeSlice" []
    [makeSliceStmt 81 "items" "SmallStruct"; blankUse 82 "items" (at_ 81 2);
     makeSliceStmt 85 "largeItems" "LargeStruct";
     blankUse 86 "largeItems" (at_ 85 2)].

(** [<name>[0]] at [pos]. *)
Definition index0 (pos : token.Pos) (name : string) (decl : token.Pos) : ast.Expr :=
  ast.IndexExpr (ast.IdentExpr (var pos name decl)) (ast.OtherExpr (pos + 6) []).

Definition nilUsageInSlice : ast.FuncDecl :=
  func 89 "nilUsageInSlice" []
    [makeSliceStmt 91 "items" "SmallStruct";
     ast.OtherStmt (at_ 92 2)
       [ast.ExprNode (ast.BinaryExpr (index0 (at_ 92 5) "items" (at_ 91 2))
                        token.EQL (nil_ (at_ 92 17)));
        ast.StmtNode (ast.OtherStmt (at_ 92 21)
                        [ast.StmtNode (ast.ReturnStmt (at_ 93 3) [])])];
     makeSliceStmt 97 "items2" "SmallStruct";
     ast.AssignStmt [index0 (at_ 98 2) "items2" (at_ 97 2)] token.ASSIGN
                    [nil_ (at_ 98 14)];
     blankUse 99 "items2" (at_ 97 2)].

Definition GetSmallStructNolint : ast.FuncDecl :=
  func 105 "GetSmallStructNolint" [ptr (at_ 105 29) "SmallStruct"]
    [ast.ReturnStmt (at_ 106 2) [newOf (at_ 106 9) "SmallStruct"]].

Definition GetSmallStructIgnore : ast.FuncDecl :=
  func 110 "GetSmallStructIgnore" [ptr (at_ 110 29) "SmallStruct"]
    [ast.ReturnStmt (at_ 111 2) [newOf (at_ 111 9) "SmallStruct"]].

Definition GetSmallStructBlanket : ast.FuncDecl :=
  func 115 "GetSmallStructBlanket" [ptr (at_ 115 30) "SmallStruct"]
    [ast.ReturnStmt (at_ 116 2) [newOf (at_ 116 9) "SmallStruct"]].

Definition comments : list (list ast.Comment) :=
  [[ast.mkComment (at_ 3 1) "// SmallStruct is a small struct (32 bytes on 64-bit)"];
   [ast.mkComment (at_ 24 1) "// OK: returns nil"];
   [ast.mkComment (at_ 104 1) "//nolint:pointless"];
   [ast.mkComment (at_ 109 1) "//pointless:ignore"];
   [ast.mkComment (at_ 114 1) "// nolint (blanket)"]].

Definition a_go : ast.File :=
  ast.mkFile (at_ 1 1)
    (List.map ast.FuncDeclD
       [GetSmallStruct; FindSmallStruct; GetLargeStruct; GetSmallStructs;
        FullName; SetName; IncrementAge; variableDeclarations; makeSlice;
        nilUsageInSlice; GetSmallStructNolint; GetSmallStructIgnore;
        GetSmallStructBlanket])
    comments.

Definition a : Pass := package "a/a.go" [a_go].

Definition defaults : Config := mkConfig DefaultThreshold [].



(** A function [Lazy] that returns [&SmallStruct{}] and holds a function
    literal that returns [nil]:
    [f := func() *SmallStruct { return nil }; _ = f; return &SmallStruct{}]. *)
Definition Lazy : ast.FuncDecl :=
  func 3 "Lazy" [ptr (at_ 3 13) "SmallStruct"]
    [ast.AssignStmt [ast.IdentExpr (var (at_ 4 2) "f" (at_ 4 2))] token.DEFINE
       [ast.FuncLit (at_ 4 7) []
          [ast.mkField [] (ptr (at_ 4 14) "SmallStruct")]
          [ast.ReturnStmt (at_ 4 29) [nil_ (at_ 4 36)]]];
     blankUse 5 "f" (at_ 4 2);
     ast.ReturnStmt (at_ 6 2) [newOf (at_ 6 9) "SmallStruct"]].

Definition lazy : Pass :=
  package "a/lazy.go" [ast.mkFile (at_ 1 1) [ast.FuncDeclD Lazy] []].

(** A method whose receiver [s] is shadowed by a local [s] in an inner
    block, and only the local is assigned to:
    [func (s *SmallStruct) Shadow() { { s := SmallStruct{}; s.Age = 1 } }]. *)
Definition Shadow : ast.FuncDecl :=
  method 3 "s" "SmallStruct" "Shadow" []
    [ast.OtherStmt (at_ 4 2)
       [ast.StmtNode
          (ast.AssignStmt [ast.IdentExpr (var (at_ 5 3) "s" (at_ 5 3))]
             token.DEFINE
             [ast.OtherExpr (at_ 5 8)
                [ast.ExprNode (ast.IdentExpr (free (at_ 5 8) "SmallStruct"))]]);
        ast.StmtNode
          (ast.AssignStmt
             [ast.SelectorExpr (ast.IdentExpr (var (at_ 6 3) "s" (at_ 5 3)))
                               (free (at_ 6 5) "Age")]
             token.ASSIGN [ast.OtherExpr (at_ 6 11) []])]].

Definition shadow : Pass :=
  package "a/shadow.go" [ast.mkFile (at_ 1 1) [ast.FuncDeclD Shadow] []].

(** A method that sets a field of its receiver through an explicit
    dereference: the body of [func (s *SmallStruct) Reset()] is one
    assignment of [0] to the field [Age] of the parenthesised [*s],
    written on line 4. [ResetPlain] is the same method with the
    assignment written [s.Age = 0]. *)
Definition Reset : ast.FuncDecl :=
  method 3 "s" "SmallStruct" "Reset" []
    [ast.AssignStmt
       [ast.SelectorExpr
          (ast.ParenExpr (at_ 4 2)
             (ast.StarExpr (at_ 4 3)
                (ast.IdentExpr (var (at_ 4 4) "s" (at_ 3 7)))))
          (free (at_ 4 7) "Age")]
       token.ASSIGN [ast.OtherExpr (at_ 4 13) []]].

Definition reset : Pass :=
  package "a/reset.go" [ast.mkFile (at_ 1 1) [ast.FuncDeclD Reset] []].

Definition ResetPlain : ast.FuncDecl :=
  method 3 "s" "SmallStruct" "Reset" []
    [ast.AssignStmt
       [ast.SelectorExpr (ast.IdentExpr (var (at_ 4 2) "s" (at_ 3 7)))
                         (free (at_ 4 4) "Age")]
       token.ASSIGN [ast.OtherExpr (at_ 4 10) []]].

Definition resetPlain : Pass :=
  package "a/reset.go" [ast.mkFile (at_ 1 1) [ast.FuncDeclD ResetPlain] []].





End Sample.


(** ** A sample system

    A working directory [/home/u/proj/pkg], a [.pointless.yml] in
    [/home/u/proj] and a [.pointless.yaml] in [/home/u]. Paths are
    joined with a slash, the parent of a path is what stands before its
    last slash, and the root is its own parent. *)

Module SampleSystem.

Fixpoint hasSlash (s : string) : bool :=
  match s with
  | String c s' => Ascii.eqb c "/" || hasSlash s'
  | EmptyString => false
  end.

(** The part of [path] before its last slash, [None] without a slash. *)
Fixpoint beforeLastSlash (path : string) : option string :=
  match path with
  | String c path' =>
      match beforeLastSlash path' with
      | Some d => Some (String c d)
      | None => if Ascii.eqb c "/" then Some EmptyString else None
      end
  | EmptyString => None
  end.

Definition dir (path : string) : string :=
  match beforeLastSlash path with
  | Some EmptyString => "/"
  | Some d => d
  | None => "."
  end.

Definition join (d name : string) : string :=
  if String.eqb d "/" then d +:+ name else d +:+ "/" +:+ name.

Definition files : list string :=
  ["/home/u/proj/.pointless.yml"; "/home/u/.pointless.yaml";
   "/home/u/.pointless.yml"].

(** A system with the working directory [cwd] and the files [present],
    and a decoder that reads every file as [threshold: 512]. *)
Definition systemOf (cwd : string) (present : list string) : config.System := {|
  config.error := string;
  config.fmt_Errorf context err := context +:+ ": " +:+ err;
  config.os_Getwd := inl cwd;
  config.os_Stat path := existsb (String.eqb path) present;
  config.os_ReadFile path := inl "threshold: 512";
  config.filepath_Join := join;
  config.filepath_Dir := dir;
  config.yaml_Unmarshal data cfg :=
    (config.mkConfig 512 (config.Exclude cfg), None);
  config.strconv_Itoa z := NilZero.string_of_int (Z.to_int z)
|}.

Definition world : config.System := systemOf "/home/u/proj/pkg" files.

(** The same without any configuration file, in [/srv/app]. *)
Definition bare : config.System := systemOf "/srv/app" [].

End SampleSystem.

(** ** A package with a directive in another file

    [doc.go] holds only [//nolint] on line 3; [get.go] holds
    [func Get() *SmallStruct] on line 3. The positions of [get.go] start
    at [1000000]. *)

Module SampleDirective.

Definition doc_go : ast.File :=
  ast.mkFile (Sample.at_ 1 1) []
    [[ast.mkComment (Sample.at_ 3 1) "//nolint"]].

Definition Get : ast.FuncDecl :=
  ast.mkFuncDecl None (Sample.free (1000000 + Sample.at_ 3 6) "Get")
    (1000000 + Sample.at_ 3 1) []
    (Some [ast.mkField []
             (Sample.ptr (1000000 + Sample.at_ 3 12) "SmallStruct")])
    (Some [ast.ReturnStmt (1000000 + Sample.at_ 4 2)
             [Sample.newOf (1000000 + Sample.at_ 4 9) "SmallStruct"]]).

Definition get_go : ast.File :=
  ast.mkFile (1000000 + Sample.at_ 1 1) [ast.FuncDeclD Get] [].

Definition fileOf (pos : token.Pos) : string :=
  if pos <? 1000000 then "a/doc.go" else "a/get.go".

Definition lineOf (pos : token.Pos) : Z := (pos mod 1000000) / 1000.

Definition both : Pass :=
  mkPass [doc_go; get_go] fileOf lineOf Sample.typeOf Sample.defOf Sample.useOf.

Definition alone : Pass :=
  mkPass [get_go] fileOf lineOf Sample.typeOf Sample.defOf Sample.useOf.

End SampleDirective.

(** * Properties *)

(** ** Maps read with a default *)

Lemma get_empty `{Countable K} (k : K) : get (∅ : gmap K bool) k = false.
Proof. unfold get. by rewrite lookup_empty. Qed.

Lemma get_insert_eq `{Countable K} (m : gmap K bool) (k : K) :
  get (<[k := true]> m) k = true.
Proof. unfold get. by rewrite lookup_insert_eq. Qed.

Lemma get_insert_ne `{Countable K} (m : gmap K bool) (k k' : K) :
  k <> k' -> get (<[k := true]> m) k' = get m k'.
Proof. intros Hne. unfold get. by rewrite lookup_insert_ne. Qed.

Lemma get_insert_true `{Countable K} (m : gmap K bool) (k k' : K) :
  get (<[k := true]> m) k' = true <-> k = k' \/ get m k' = true.
Proof.
  destruct (decide (k = k')) as [->|Hne].
  - rewrite get_insert_eq. tauto.
  - rewrite get_insert_ne by done. tauto.
Qed.

Lemma get_insert_mono `{Countable K} (m : gmap K bool) (k k' : K) :
  get m k' = true -> get (<[k := true]> m) k' = true.
Proof. rewrite get_insert_true. tauto. Qed.

(** ** The size oracle *)



(** The sizes the repository's test data and the specification quote. *)
Example sizeOf_SmallStruct : sizeOf Sample.SmallStruct = 32.
Proof. reflexivity. Qed.

Example sizeOf_LargeStruct : sizeOf Sample.LargeStruct = 1536.
Proof. reflexivity. Qed.

(** ** Suppression comments: the forms *)

Lemma HasPrefix_app (s t : string) : Strings.HasPrefix (s +:+ t) s = true.
Proof.
  induction s as [|c s IH]; [done|].
  change (Strings.HasPrefix (String c (s +:+ t)) (String c s) = true).
  simpl. by rewrite Ascii.eqb_refl.
Qed.

Lemma TrimPrefix_app (s t : string) : Strings.TrimPrefix (s +:+ t) s = t.
Proof.
  unfold Strings.TrimPrefix. rewrite HasPrefix_app.
  induction s as [|c s IH]; [done|].
  change (Strings.drop (String.length s) (s +:+ t) = t). done.
Qed.

Lemma HasPrefix_inv (s prefix : string) :
  Strings.HasPrefix s prefix = true ->
  s = prefix +:+ Strings.drop (String.length prefix) s.
Proof.
  revert s. induction prefix as [|c prefix IH]; intros [|d s]; simpl; try done.
  destruct (Ascii.eqb_spec c d) as [->|]; [|done].
  intros Hp.
  change (String d s
          = String d (prefix +:+ Strings.drop (String.length prefix) s)).
  f_equal. by apply IH.
Qed.

(** A text cannot begin with [nolint] and with [pointless:ignore]. *)
Lemma ignore_not_nolint (text : string) :
  Strings.HasPrefix text "pointless:ignore" = true ->
  Strings.HasPrefix text "nolint" = false.
Proof.
  destruct text as [|c text]; [done|]. cbn [Strings.HasPrefix].
  destruct (Ascii.eqb_spec "p" c) as [<-|]; [intros _; reflexivity | done].
Qed.

(** C6, as stated, fails: text that goes on after [pointless:ignore]
    suppresses as well. *)
Lemma tool_specific_form_not_exact :
  ~ (forall text : string,
       Strings.HasPrefix text "nolint" = false ->
       (isNolintComment (H := Sample.asciiText) text = true
        <-> text = "pointless:ignore")).
Proof.
  intros Hall.
  destruct (Hall "pointless:ignore-next-line" eq_refl) as [Hexact _].
  discriminate (Hexact eq_refl).
Qed.

(** C6, amended: a comment suppresses under the tool-specific form
    exactly when its stripped and trimmed text begins with
    [pointless:ignore], whatever follows. *)
Theorem tool_specific_form_is_prefix `{GoStdlib} (text : string) :
  (Strings.HasPrefix text "pointless:ignore" = true ->
   isNolintComment text = true)
  /\ (Strings.HasPrefix text "nolint" = false ->
      isNolintComment text = Strings.HasPrefix text "pointless:ignore").
Proof.
  assert (Hno : Strings.HasPrefix text "nolint" = false ->
                isNolintComment text
                = Strings.HasPrefix text "pointless:ignore").
  { intros Hn. unfold isNolintComment. by rewrite Hn. }
  split; [|done].
  intros Hp. rewrite Hno; [done|]. by apply ignore_not_nolint.
Qed.

Example tool_specific_form_examples :
  isNolintComment (H := Sample.asciiText) "pointless:ignore" = true
  /\ isNolintComment (H := Sample.asciiText) "pointless:ignored, see above" = true
  /\ isNolintComment (H := Sample.asciiText) "pointless" = false.
Proof. repeat split. Qed.

(** ** One diagnostic per entry *)










Lemma checkMethodReceiver_category cfg pass fn receiverMutations d :
  In d (checkMethodReceiver cfg pass fn receiverMutations) ->
  category d = PointerReceiver.
Proof.
  unfold checkMethodReceiver.
  repeat (case_match; simpl; try tauto).
  intros [<-|[]]. reflexivity.
Qed.






(** ** The size test *)

Lemma size_test (size limit : Z) {A} (big small : A) :
  (if size >? limit then big else small)
  = if bool_decide (size <= limit) then small else big.
Proof.
  rewrite Z.gtb_ltb.
  destruct (Z.ltb_spec limit size); case_bool_decide; done || lia.
Qed.

(** C2: for a struct type of size [S = sizeOf t] and the threshold [T],
    every rule whose other conditions hold reports exactly when
    [S <= T]: PointerReturn, PointerReceiver, PointerSequenceReturn and
    PointerSequenceVariable in its two forms. *)
Theorem size_test_is_at_most_threshold cfg pass (t : types.Type_) :
  types.isStruct (types.Underlying t) = true ->
  (forall fn star x nilReturns,
      get nilReturns (funcKey fn) = false ->
      Types pass x = Some t ->
      checkPointerReturn cfg pass fn star x nilReturns
      = if bool_decide (sizeOf t <= threshold cfg)
        then [mkDiagnostic star ValueReturnFmt t RelativeToPkg (sizeOf t)
                (threshold cfg)]
        else [])
  /\ (forall fn recv recvs star x receiverMutations,
        ast.Recv fn = Some (recv :: recvs) ->
        ast.FieldType recv = ast.StarExpr star x ->
        get receiverMutations (funcKey fn) = false ->
        Types pass x = Some t ->
        checkMethodReceiver cfg pass fn receiverMutations
        = if bool_decide (sizeOf t <= threshold cfg)
          then [mkDiagnostic (ast.FuncPos fn) ValueReceiverFmt t RelativeToPkg
                  (sizeOf t) (threshold cfg)]
          else [])
  /\ (forall fn lbrack star x nilReturns,
        get nilReturns (funcKey fn) = false ->
        Types pass x = Some t ->
        checkSliceReturn cfg pass fn lbrack None (ast.StarExpr star x) nilReturns
        = if bool_decide (sizeOf t <= threshold cfg)
          then [mkDiagnostic lbrack ValueSliceFmt t RelativeToPkg (sizeOf t)
                  (threshold cfg)]
          else [])
  /\ (forall names lbrack star x values nilUsages,
        hasNilUsage pass names nilUsages = false ->
        Types pass x = Some t ->
        checkSpec cfg pass nilUsages
          (ast.ValueSpec names
             (Some (ast.ArrayType lbrack None (ast.StarExpr star x))) values)
        = if bool_decide (sizeOf t <= threshold cfg)
          then [mkDiagnostic lbrack ValueSliceFmt t NoQualifier (sizeOf t)
                  (threshold cfg)]
          else [])
  /\ (forall make lbrack star x args lhs nilUsages,
        ast.Name make = "make" ->
        lhsNilUsage pass lhs nilUsages = false ->
        Types pass x = Some t ->
        checkRhs cfg pass nilUsages lhs
          (ast.CallExpr (ast.IdentExpr make)
             (ast.ArrayType lbrack None (ast.StarExpr star x) :: args))
        = if bool_decide (sizeOf t <= threshold cfg)
          then [mkDiagnostic lbrack ValueSliceFmt t NoQualifier (sizeOf t)
                  (threshold cfg)]
          else []).
Proof.
  intros Hstruct. repeat split.
  - intros fn star x nilReturns Hnil Hty.
    unfold checkPointerReturn. rewrite Hnil, Hty, Hstruct. simpl.
    apply size_test.
  - intros fn recv recvs star x receiverMutations Hrecv Hfield Hmut Hty.
    unfold checkMethodReceiver. rewrite Hrecv, Hfield, Hmut, Hty.
    apply size_test.
  - intros fn lbrack star x nilReturns Hnil Hty.
    unfold checkSliceReturn. rewrite Hnil, Hty, Hstruct. simpl.
    apply size_test.
  - intros names lbrack star x values nilUsages Hnil Hty.
    unfold checkSpec, reportSlice. rewrite Hnil, Hty, Hstruct. simpl.
    apply size_test.
  - intros make lbrack star x args lhs nilUsages Hmake Hnil Hty.
    unfold checkRhs, reportSlice. rewrite Hmake, Hnil, Hty, Hstruct. simpl.
    apply size_test.
Qed.

(** At a threshold of 32 bytes the 32-byte struct of the test data is
    still reported; at 31 bytes it is not. *)
Lemma size_equal_to_threshold_fires :
  checkPointerReturn (mkConfig 32 []) Sample.a Sample.GetSmallStruct
    (Sample.at_ 20 23) (ast.IdentExpr (Sample.free (Sample.at_ 20 24) "SmallStruct")) ∅
  = [mkDiagnostic (Sample.at_ 20 23) ValueReturnFmt Sample.SmallStruct
       RelativeToPkg 32 32].
Proof.
  exact (proj1 (size_test_is_at_most_threshold (mkConfig 32 []) Sample.a
                  Sample.SmallStruct eq_refl)
           Sample.GetSmallStruct (Sample.at_ 20 23)
           (ast.IdentExpr (Sample.free (Sample.at_ 20 24) "SmallStruct")) ∅
           eq_refl eq_refl).
Defined.

Example size_above_threshold_is_silent :
  run (H := Sample.asciiText) (mkConfig 31 []) Sample.a = []
  /\ List.map DiagPos (run (H := Sample.asciiText) (mkConfig 32 []) Sample.a)
     = [20023; 39024; 50001; 72012; 81016].
Proof. split; reflexivity. Qed.

(** ** Folds over maps and diagnostics *)

Lemma get_fold_left `{Countable K} {A} (f : gmap K bool -> A -> gmap K bool)
    (Q : A -> K -> Prop) :
  (forall m x k, get (f m x) k = true <-> get m k = true \/ Q x k) ->
  forall l m k,
    get (fold_left f l m) k = true
    <-> get m k = true \/ exists x, In x l /\ Q x k.
Proof.
  intros Hf l. induction l as [|a l IH]; intros m k; simpl.
  - split; [tauto|]. intros [?|(? & [] & _)]. done.
  - rewrite IH, Hf. split.
    + intros [[?|?]|(x & ? & ?)]; eauto 6.
    + intros [?|(x & [<-|?] & ?)]; eauto 6.
Qed.

Lemma fold_left_app_flat_map {A B} (g : A -> list B) (l : list A) (acc : list B) :
  fold_left (fun diags n => (diags ++ g n)%list) l acc = (acc ++ flat_map g l)%list.
Proof.
  revert acc. induction l as [|a l IH]; intros acc; simpl.
  - by rewrite app_nil_r.
  - by rewrite IH, app_assoc.
Qed.

(** Every diagnostic of [run] is reported by [visit] at a node of the
    pass. *)
Lemma run_origin `{GoStdlib} cfg pass d :
  In d (run cfg pass) ->
  exists node,
    In node (inspector.New (Files pass))
    /\ In d (visit cfg pass (excludedFilesOf cfg pass) (buildNolintMap pass)
               (findNilReturns (inspector.New (Files pass)))
               (findReceiverMutations pass (inspector.New (Files pass)))
               (findNilUsages (inspector.New (Files pass))) node).
Proof.
  unfold run, inspector.Preorder.
  rewrite fold_left_app_flat_map. simpl. rewrite in_flat_map.
  intros (node & Hnode & Hd). apply List.filter_In in Hnode.
  destruct Hnode as [Hnode _]. eauto.
Qed.

(** ** Suppression comments: the line table *)






Lemma markComment_get `{GoStdlib} pass (result : gmap Z bool) c line :
  get (markComment pass result c) line = true
  <-> get result line = true
      \/ (suppresses c = true
          /\ (line = Line pass (ast.Slash c)
              \/ line = Line pass (ast.Slash c) + 1)).
Proof.
  unfold markComment, suppresses.
  destruct (isNolintComment _).
  - rewrite !get_insert_true. intuition congruence.
  - intuition congruence.
Qed.

(** The lines [buildNolintMap] marks are the lines of the matching
    comments and the lines after them, and no others. The table is keyed
    by the line number alone, for all files of the pass. *)
Lemma buildNolintMap_get `{GoStdlib} pass (line : Z) :
  get (buildNolintMap pass) line = true
  <-> exists f cg c,
        In f (Files pass) /\ In cg (ast.Comments f) /\ In c cg
        /\ suppresses c = true
        /\ (line = Line pass (ast.Slash c)
            \/ line = Line pass (ast.Slash c) + 1).
Proof.
  unfold buildNolintMap.
  rewrite (get_fold_left _
             (fun f k => exists cg c,
                  In cg (ast.Comments f) /\ In c cg /\ suppresses c = true
                  /\ (k = Line pass (ast.Slash c)
                      \/ k = Line pass (ast.Slash c) + 1))).
  - rewrite get_empty. naive_solver.
  - intros m f k.
    rewrite (get_fold_left _
               (fun cg k => exists c,
                    In c cg /\ suppresses c = true
                    /\ (k = Line pass (ast.Slash c)
                        \/ k = Line pass (ast.Slash c) + 1))).
    + naive_solver.
    + intros m' cg k'.
      rewrite (get_fold_left _
                 (fun c k => suppresses c = true
                             /\ (k = Line pass (ast.Slash c)
                                 \/ k = Line pass (ast.Slash c) + 1))).
      * naive_solver.
      * intros. apply markComment_get.
Qed.

Lemma visit_suppressed `{GoStdlib} cfg pass excluded nolintLines
    nilReturns receiverMutations nilUsages node :
  get nolintLines (Line pass (ast.NodePos node)) = true ->
  visit cfg pass excluded nolintLines nilReturns receiverMutations nilUsages node
  = [].
Proof. intros Hline. unfold visit. rewrite Hline. by case_match. Qed.

Lemma visit_not_suppressed `{GoStdlib} cfg pass excluded nolintLines
    nilReturns receiverMutations nilUsages node d :
  In d (visit cfg pass excluded nolintLines nilReturns receiverMutations
          nilUsages node) ->
  get excluded (FileName pass (ast.NodePos node)) = false
  /\ get nolintLines (Line pass (ast.NodePos node)) = false.
Proof.
  unfold visit.
  destruct (get excluded _); [done|].
  destruct (get nolintLines _); done.
Qed.


Example suppression_in_the_test_data :
  isNolintComment (H := Sample.asciiText) "nolint:pointless" = true
  /\ isNolintComment (H := Sample.asciiText) "nolint:foo, pointless ,bar" = true
  /\ isNolintComment (H := Sample.asciiText) "nolint (blanket)" = true
  /\ isNolintComment (H := Sample.asciiText) "nolint:othertool" = false
  /\ isNolintComment (H := Sample.asciiText) "nolintpointless" = false
  /\ get (buildNolintMap (H := Sample.asciiText) Sample.a) 105 = true
  /\ get (buildNolintMap (H := Sample.asciiText) Sample.a) 106 = false.
Proof. repeat split. Qed.

(** ** File exclusion *)

Lemma shouldExclude_spec `{GoStdlib} (path : string) (patterns : list string) :
  shouldExclude path patterns = true
  <-> exists pattern,
        In pattern patterns
        /\ (filepath_Match pattern path = true
            \/ filepath_Match pattern (filepath_Base path) = true).
Proof.
  unfold shouldExclude. rewrite existsb_exists.
  by setoid_rewrite orb_true_iff.
Qed.

(** The table of excluded files holds the names of the files of the
    pass that match, and is built from the files alone. *)
Lemma excludedFilesOf_get `{GoStdlib} cfg pass (name : string) :
  get (excludedFilesOf cfg pass) name = true
  <-> exists f,
        In f (Files pass) /\ name = FileName pass (ast.Package f)
        /\ shouldExclude name (excludePatterns cfg) = true.
Proof.
  unfold excludedFilesOf.
  destruct (excludePatterns cfg) as [|pattern patterns] eqn:Hpatterns.
  - simpl. rewrite get_empty. split; [done|]. by intros (f & _ & _ & ?).
  - cbn [length Nat.ltb Nat.leb].
    rewrite (get_fold_left _
               (fun f k => k = FileName pass (ast.Package f)
                           /\ shouldExclude k (pattern :: patterns) = true)).
    + rewrite get_empty. naive_solver.
    + intros m f k.
      destruct (shouldExclude (FileName pass (ast.Package f)) _) eqn:Hex.
      * rewrite get_insert_true. naive_solver.
      * split; [tauto|]. intros [?|[-> Hk]]; [done|congruence].
Qed.

Lemma visit_excluded `{GoStdlib} cfg pass excluded nolintLines
    nilReturns receiverMutations nilUsages node :
  get excluded (FileName pass (ast.NodePos node)) = true ->
  visit cfg pass excluded nolintLines nilReturns receiverMutations nilUsages node
  = [].
Proof. intros Hfile. unfold visit. by rewrite Hfile. Qed.

(** C9: a file is excluded when a pattern matches its path or its base
    name; the table of excluded files is computed from the files and the
    patterns before any node is visited; a node of an excluded file is
    reported under no rule, so no diagnostic of [run] comes from such a
    file. *)
Theorem excluded_file_is_silent `{GoStdlib} cfg pass :
  (forall path patterns,
      shouldExclude path patterns = true
      <-> exists pattern,
            In pattern patterns
            /\ (filepath_Match pattern path = true
                \/ filepath_Match pattern (filepath_Base path) = true))
  /\ (forall name,
        get (excludedFilesOf cfg pass) name = true
        <-> exists f,
              In f (Files pass) /\ name = FileName pass (ast.Package f)
              /\ shouldExclude name (excludePatterns cfg) = true)
  /\ (forall f node nolintLines nilReturns receiverMutations nilUsages,
        In f (Files pass) ->
        shouldExclude (FileName pass (ast.Package f)) (excludePatterns cfg) = true ->
        In node (ast.walkFile f) ->
        FileName pass (ast.NodePos node) = FileName pass (ast.Package f) ->
        visit cfg pass (excludedFilesOf cfg pass) nolintLines nilReturns
              receiverMutations nilUsages node = [])
  /\ (forall d,
        In d (run cfg pass) ->
        exists node,
          In node (inspector.New (Files pass))
          /\ In d (visit cfg pass (excludedFilesOf cfg pass) (buildNolintMap pass)
                     (findNilReturns (inspector.New (Files pass)))
                     (findReceiverMutations pass (inspector.New (Files pass)))
                     (findNilUsages (inspector.New (Files pass))) node)
          /\ get (excludedFilesOf cfg pass) (FileName pass (ast.NodePos node))
             = false).
Proof.
  split; [apply shouldExclude_spec|].
  split; [apply excludedFilesOf_get|].
  split.
  - intros f node nolintLines nilReturns receiverMutations nilUsages
           Hf Hexcluded _ Hname.
    apply visit_excluded. rewrite Hname. apply excludedFilesOf_get. eauto.
  - intros d Hd. apply run_origin in Hd as (node & Hnode & Hd).
    exists node. split; [done|]. split; [done|].
    by apply visit_not_suppressed in Hd as [Hfile _].
Qed.

Example exclusion_of_the_test_data :
  run (H := Sample.asciiText) (mkConfig 1024 ["*.go"]) Sample.a = []
  /\ run (H := Sample.asciiText) (mkConfig 1024 ["a/*.go"]) Sample.a = []
  /\ length (run (H := Sample.asciiText) (mkConfig 1024 ["*_test.go"]) Sample.a)
     = 5%nat.
Proof. repeat split. Qed.

(** ** The nodes below a node *)

Lemma closed_nil : closed [].
Proof. intros m []. Qed.

Lemma closed_app (a b : list ast.Sub) : closed a -> closed b -> closed (a ++ b).
Proof.
  intros Ha Hb m Hm k Hk. apply in_app_iff.
  apply in_app_iff in Hm as [Hm|Hm]; [left|right]; eauto.
Qed.

Lemma closed_flat_map {A} (f : A -> list ast.Sub) (l : list A) :
  list_all A (fun x => closed (f x)) l -> closed (flat_map f l).
Proof.
  induction 1 as [|x Hx l _ IH]; simpl; [apply closed_nil|].
  by apply closed_app.
Qed.

Lemma closed_option {A} (f : A -> list ast.Sub) (o : option A) :
  option_all A (fun x => closed (f x)) o ->
  closed match o with Some x => f x | None => [] end.
Proof. destruct 1; [done|apply closed_nil]. Qed.

Lemma closed_self (n : ast.Sub) (w : list ast.Sub) :
  ast.walkSub n = n :: w -> closed w -> closed (n :: w).
Proof.
  intros Hn Hw m [<-|Hm] k Hk.
  - by rewrite Hn in Hk.
  - right. eauto.
Qed.

Create HintDb closed.
#[local] Hint Resolve closed_nil closed_app closed_flat_map closed_option : closed.

Lemma walk_closed :
  (forall e, closed (ast.walkExpr e))
  /\ (forall f, closed (ast.walkField f))
  /\ (forall s, closed (ast.walkStmt s))
  /\ (forall d, closed (ast.walkGenDecl d))
  /\ (forall s, closed (ast.walkSpec s))
  /\ (forall n, closed (ast.walkSub n)).
Proof.
  apply ast.syntax_ind; intros; simpl;
    try (apply closed_self; [reflexivity|]);
    auto 6 with closed.
Qed.

(** The nodes below the statements of a function literal are nodes
    below every statement list that holds the literal. *)
Lemma nodesOf_FuncLit (body litBody : list ast.Stmt) func params results :
  In (ast.ExprNode (ast.FuncLit func params results litBody)) (nodesOf body) ->
  forall k, In k (nodesOf litBody) -> In k (nodesOf body).
Proof.
  intros Hlit k Hk.
  assert (Hclosed : closed (nodesOf body)).
  { apply closed_flat_map. clear Hlit.
    induction body as [|s body IH]; [apply nil_all|apply cons_all; [|done]].
    apply walk_closed. }
  apply (Hclosed _ Hlit). simpl. right.
  rewrite !in_app_iff. by right; right.
Qed.

(** ** The inspector's order *)

(** A function that leaves the state alone outside its filter sees the
    same as one called on every node. *)
Lemma Preorder_all {S} (ins : inspector.Inspector) types (f : S -> ast.Node -> S) s :
  (forall st n, inspector.kindOf n ∉ types -> f st n = st) ->
  inspector.Preorder ins types f s = fold_left f ins s.
Proof.
  intros Hf. unfold inspector.Preorder. revert s.
  induction ins as [|n ins IH]; intros s; simpl; [done|].
  case_bool_decide; simpl; [done|]. by rewrite Hf.
Qed.

(** A function declaration of the pass is followed by the nodes below
    it. *)
Lemma New_split pass fn :
  declaredIn pass fn ->
  exists pre post,
    inspector.New (Files pass)
    = (pre ++ (ast.FuncDeclNode fn :: List.map ast.SubNode (ast.walkFuncBody fn))
           ++ post)%list.
Proof.
  intros (f & Hf & Hfn). unfold inspector.New.
  apply in_split in Hf as (fs1 & fs2 & ->).
  apply in_split in Hfn as (ds1 & ds2 & Hds).
  rewrite flat_map_app. simpl. unfold ast.walkFile at 2.
  rewrite Hds, flat_map_app. simpl.
  exists (flat_map ast.walkFile fs1 ++ flat_map ast.walkDecl ds1)%list,
         (flat_map ast.walkDecl ds2 ++ flat_map ast.walkFile fs2)%list.
  repeat (rewrite <- app_assoc; simpl). reflexivity.
Qed.

Lemma returnsNil_app (a b : list ast.Sub) :
  returnsNil (a ++ b) = returnsNil a || returnsNil b.
Proof. apply existsb_app. Qed.

Lemma returnsNil_incl (a b : list ast.Sub) :
  (forall k, In k a -> In k b) -> returnsNil a = true -> returnsNil b = true.
Proof.
  unfold returnsNil. rewrite !existsb_exists.
  intros Hincl (k & Hk & Hnil). eauto.
Qed.

(** ** Functions that return nil *)

Lemma nilReturnsVisit_ignores st n :
  inspector.kindOf n ∉ [inspector.FuncDecl; inspector.ReturnStmt] ->
  nilReturnsVisit st n = st.
Proof.
  destruct st as [result currentFunc].
  destruct n as [fd|[e|[]|d]]; simpl; try done; set_solver.
Qed.

Lemma nilReturnsVisit_sub result fn (n : ast.Sub) :
  nilReturnsVisit (result, Some fn) (ast.SubNode n)
  = (if returnsNil [n] then <[funcKey fn := true]> result else result, Some fn).
Proof.
  destruct n as [e|[]|d]; simpl; try done.
  rewrite orb_false_r. by destruct (existsb isNil _).
Qed.

Lemma nilReturnsVisit_mono st n k :
  get (fst st) k = true -> get (fst (nilReturnsVisit st n)) k = true.
Proof.
  destruct st as [result [fn|]]; destruct n as [fd|[e|[]|d]]; simpl; try done.
  destruct (existsb isNil _); simpl; [apply get_insert_mono|done].
Qed.

Lemma nilReturns_mono (l : list ast.Node) st k :
  get (fst st) k = true ->
  get (fst (fold_left nilReturnsVisit l st)) k = true.
Proof.
  revert st. induction l as [|n l IH]; intros st Hk; simpl; [done|].
  by apply IH, nilReturnsVisit_mono.
Qed.

Lemma nilReturns_body (nodes : list ast.Sub) result fn :
  returnsNil nodes = true ->
  get (fst (fold_left nilReturnsVisit (List.map ast.SubNode nodes)
              (result, Some fn))) (funcKey fn) = true.
Proof.
  revert result. induction nodes as [|n nodes IH]; intros result; [done|].
  change (n :: nodes) with ([n] ++ nodes)%list at 1.
  rewrite returnsNil_app. cbn [List.map fold_left].
  rewrite nilReturnsVisit_sub.
  destruct (returnsNil [n]); simpl.
  - intros _. apply nilReturns_mono. simpl. apply get_insert_eq.
  - apply IH.
Qed.

(** A function declaration of the pass with a nil return among the nodes
    below it is recorded by [findNilReturns]. *)
Lemma nil_return_recorded pass fn :
  declaredIn pass fn ->
  returnsNil (ast.walkFuncBody fn) = true ->
  get (findNilReturns (inspector.New (Files pass))) (funcKey fn) = true.
Proof.
  intros Hfn Hnil. unfold findNilReturns.
  rewrite Preorder_all by apply nilReturnsVisit_ignores.
  destruct (New_split pass fn Hfn) as (pre & post & ->).
  rewrite !fold_left_app. apply nilReturns_mono.
  destruct (fold_left nilReturnsVisit pre (∅, None)) as [result currentFunc].
  cbn [fold_left nilReturnsVisit]. by apply nilReturns_body.
Qed.

Lemma returnsNil_body fn body :
  ast.FuncBody fn = Some body ->
  returnsNil (nodesOf body) = true ->
  returnsNil (ast.walkFuncBody fn) = true.
Proof.
  intros Hbody. apply returnsNil_incl. intros k Hk.
  unfold ast.walkFuncBody. rewrite Hbody, !in_app_iff. by right; right; right.
Qed.

Lemma checkReturnType_exempt cfg pass fn nilReturns :
  get nilReturns (funcKey fn) = true ->
  checkReturnType cfg pass fn nilReturns = [].
Proof.
  intros Hnil. unfold checkReturnType.
  induction (default [] (ast.FuncResults fn)) as [|result results IH]; [done|].
  simpl. rewrite IH, app_nil_r.
  unfold checkResult, checkPointerReturn, checkSliceReturn. rewrite Hnil.
  by repeat case_match.
Qed.

(** A declaration recorded by [findNilReturns] is reported under neither
    return rule. *)
Lemma recorded_nil_return_exempts cfg pass fn nilReturns receiverMutations d :
  get nilReturns (funcKey fn) = true ->
  In d (checkFuncDecl cfg pass fn nilReturns receiverMutations) ->
  category d <> PointerReturn /\ category d <> PointerSequenceReturn.
Proof.
  intros Hnil. unfold checkFuncDecl.
  rewrite checkReturnType_exempt by done.
  assert (Hret : match ast.FuncResults fn with
                 | Some _ => @nil Diagnostic
                 | None => []
                 end = []) by by case_match.
  rewrite Hret, app_nil_r.
  destruct (ast.Recv fn) as [[|recv recvs]|]; simpl; try done.
  intros Hd. apply checkMethodReceiver_category in Hd. by rewrite Hd.
Qed.

(** C3: a function declaration of the pass whose body holds a return
    statement with [nil] as an operand of its result list is recorded by
    [findNilReturns] and is reported under neither PointerReturn nor
    PointerSequenceReturn, whatever the size of the struct. *)
Theorem nil_return_exempts cfg pass fn body :
  declaredIn pass fn ->
  ast.FuncBody fn = Some body ->
  returnsNil (nodesOf body) = true ->
  get (findNilReturns (inspector.New (Files pass))) (funcKey fn) = true
  /\ forall receiverMutations d,
       In d (checkFuncDecl cfg pass fn
               (findNilReturns (inspector.New (Files pass))) receiverMutations) ->
       category d <> PointerReturn /\ category d <> PointerSequenceReturn.
Proof.
  intros Hfn Hbody Hnil.
  assert (Hrec : get (findNilReturns (inspector.New (Files pass))) (funcKey fn)
                 = true)
    by eauto using nil_return_recorded, returnsNil_body.
  split; [done|]. intros receiverMutations d.
  by apply recorded_nil_return_exempts.
Qed.

(** [FindSmallStruct] of the test data returns [nil] in a branch. *)
Lemma FindSmallStruct_exempt :
  get (findNilReturns (inspector.New (Files Sample.a)))
      (funcKey Sample.FindSmallStruct) = true
  /\ forall receiverMutations d,
       In d (checkFuncDecl Sample.defaults Sample.a Sample.FindSmallStruct
               (findNilReturns (inspector.New (Files Sample.a)))
               receiverMutations) ->
       category d <> PointerReturn /\ category d <> PointerSequenceReturn.
Proof.
  apply (nil_return_exempts Sample.defaults Sample.a Sample.FindSmallStruct
           (default [] (ast.FuncBody Sample.FindSmallStruct))).
  - exists Sample.a_go. split; [left; reflexivity|right; left; reflexivity].
  - reflexivity.
  - reflexivity.
Defined.

(** C10: a return of [nil] inside a function literal counts for the
    named declaration around it: the declaration is recorded by
    [findNilReturns] and is reported under neither PointerReturn nor
    PointerSequenceReturn, whatever its own return statements give. *)
Theorem nested_literal_nil_return_exempts cfg pass fn body
    func params results litBody :
  declaredIn pass fn ->
  ast.FuncBody fn = Some body ->
  In (ast.ExprNode (ast.FuncLit func params results litBody)) (nodesOf body) ->
  returnsNil (nodesOf litBody) = true ->
  get (findNilReturns (inspector.New (Files pass))) (funcKey fn) = true
  /\ forall receiverMutations d,
       In d (checkFuncDecl cfg pass fn
               (findNilReturns (inspector.New (Files pass))) receiverMutations) ->
       category d <> PointerReturn /\ category d <> PointerSequenceReturn.
Proof.
  intros Hfn Hbody Hlit Hnil.
  assert (Hrec : get (findNilReturns (inspector.New (Files pass))) (funcKey fn)
                 = true).
  { apply nil_return_recorded; [done|].
    apply (returnsNil_body fn body Hbody).
    revert Hnil. apply returnsNil_incl.
    by apply (nodesOf_FuncLit body litBody func params results). }
  split; [done|]. intros receiverMutations d.
  by apply recorded_nil_return_exempts.
Qed.

(** [Lazy] returns a value itself; the literal inside it returns [nil]. *)
Lemma Lazy_exempt :
  get (findNilReturns (inspector.New (Files Sample.lazy)))
      (funcKey Sample.Lazy) = true
  /\ forall receiverMutations d,
       In d (checkFuncDecl Sample.defaults Sample.lazy Sample.Lazy
               (findNilReturns (inspector.New (Files Sample.lazy)))
               receiverMutations) ->
       category d <> PointerReturn /\ category d <> PointerSequenceReturn.
Proof.
  apply (nested_literal_nil_return_exempts Sample.defaults Sample.lazy
           Sample.Lazy (default [] (ast.FuncBody Sample.Lazy))
           (Sample.at_ 4 7) []
           [ast.mkField [] (Sample.ptr (Sample.at_ 4 14) "SmallStruct")]
           [ast.ReturnStmt (Sample.at_ 4 29) [Sample.nil_ (Sample.at_ 4 36)]]).
  - exists (ast.mkFile (Sample.at_ 1 1) [ast.FuncDeclD Sample.Lazy] []).
    split; left; reflexivity.
  - reflexivity.
  - simpl. tauto.
  - reflexivity.
Defined.

Example Lazy_is_silent :
  run (H := Sample.asciiText) Sample.defaults Sample.lazy = [].
Proof. reflexivity. Qed.

(** ** Methods that mutate their receiver *)


Lemma receiverMutationsVisit_ignores pass st n :
  inspector.kindOf n
    ∉ [inspector.FuncDecl; inspector.AssignStmt; inspector.IncDecStmt] ->
  receiverMutationsVisit pass st n = st.
Proof.
  destruct st as [result [currentFunc receiverObj]].
  destruct n as [fd|[e|[]|d]]; simpl; try done; set_solver.
Qed.

Lemma receiverMutationsVisit_sub pass result fn obj (n : ast.Sub) :
  receiverMutationsVisit pass (result, (Some fn, Some obj)) (ast.SubNode n)
  = (if mutatesAt pass (Some obj) n then <[funcKey fn := true]> result
     else result,
     (Some fn, Some obj)).
Proof.
  destruct n as [e|[]|d]; simpl; try done.
  - by destruct (existsb _ _).
  - by destruct (refersToReceiver _ _ _).
Qed.









(** C4: the method [Reset], whose only statement assigns to the field
    [Age] of its dereferenced receiver, mutates through the receiver as
    the specification has it; [refersToReceiver] has no case for the
    parentheses, so [findReceiverMutations] records nothing and [run]
    reports the method under PointerReceiver. The same method with the
    assignment written [s.Age = 0] is recorded and not reported. *)
Theorem parenthesised_dereference_is_reported :
  receiverOf Sample.reset Sample.Reset
  = Some (Sample.objectAt "s" (Sample.at_ 3 7))
  /\ mutates Sample.reset (Sample.objectAt "s" (Sample.at_ 3 7))
       (nodesOf (default [] (ast.FuncBody Sample.Reset)))
  /\ findReceiverMutations Sample.reset (inspector.New (Files Sample.reset)) = ∅
  /\ run (H := Sample.asciiText) Sample.defaults Sample.reset
     = [mkDiagnostic (Sample.at_ 3 1) ValueReceiverFmt Sample.SmallStruct
          RelativeToPkg 32 1024]
  /\ get (findReceiverMutations Sample.resetPlain
            (inspector.New (Files Sample.resetPlain)))
         (funcKey Sample.ResetPlain) = true
  /\ run (H := Sample.asciiText) Sample.defaults Sample.resetPlain = [].
Proof.
  split; [reflexivity|]. split; [|repeat split; reflexivity].
  left. eexists _, _, _, _. split; [left; reflexivity|].
  split; [left; reflexivity|].
  apply resolves_field, resolves_paren, resolves_deref, resolves_ident.
  reflexivity.
Qed.

(** The local [s] of [Shadow] has the receiver's name and another
    object: the method is not recorded and is reported. *)
Example Shadow_is_reported :
  findReceiverMutations Sample.shadow (inspector.New (Files Sample.shadow)) = ∅
  /\ List.map category (run (H := Sample.asciiText) Sample.defaults Sample.shadow)
     = [PointerReceiver].
Proof. split; reflexivity. Qed.

(** ** Sequences that hold nil *)

Lemma nilUsagesVisit_ignores result n :
  inspector.kindOf n ∉ [inspector.BinaryExpr; inspector.AssignStmt] ->
  nilUsagesVisit result n = result.
Proof. destruct n as [fd|[[]|[]|d]]; simpl; try done; set_solver. Qed.

Lemma record_mono key (result : gmap token.Pos bool) k :
  get result k = true -> get (record key result) k = true.
Proof. destruct key; simpl; [apply get_insert_mono|done]. Qed.

Lemma nilAssigned_mono (lhs rhs : list ast.Expr) result k :
  get result k = true -> get (nilAssigned lhs rhs result) k = true.
Proof.
  revert rhs result. induction lhs as [|l lhs IH]; intros rhs result Hk; [done|].
  simpl. apply IH.
  destruct l, rhs as [|r rhs]; try done.
  destruct (isNil r); [by apply record_mono|done].
Qed.

Lemma nilUsagesVisit_mono result n k :
  get result k = true -> get (nilUsagesVisit result n) k = true.
Proof.
  intros Hk. destruct n as [fd|[[]|[]|d]]; simpl; try done.
  - destruct (_ || _); [|done].
    destruct (isNil Y), (isNil X); auto using record_mono.
  - by apply nilAssigned_mono.
Qed.


Lemma nilAssigned_records (v : ast.Ident) o (lhs rhs : list ast.Expr) n i r result :
  ast.Obj v = Some o ->
  lhs !! n = Some (ast.IndexExpr (ast.IdentExpr v) i) ->
  rhs !! n = Some r ->
  isNil r = true ->
  get (nilAssigned lhs rhs result) (ast.ObjPos o) = true.
Proof.
  intros Hobj. revert rhs n result.
  induction lhs as [|l lhs IH]; intros rhs n result Hl Hr Hnil; [done|].
  destruct rhs as [|r0 rhs]; [done|].
  destruct n as [|n]; simpl in Hl, Hr.
  - simplify_eq. simpl. rewrite Hnil, Hobj. simpl.
    apply nilAssigned_mono, get_insert_eq.
  - simpl. eapply IH; eauto.
Qed.

Lemma nilUsagesVisit_records (v : ast.Ident) o node result :
  ast.Obj v = Some o ->
  nilUse v node ->
  get (nilUsagesVisit result node) (ast.ObjPos o) = true.
Proof.
  intros Hobj Huse.
  destruct Huse as [i op y Hop Hnil|x op i Hop Hnil|lhs rhs tok n i r Hl Hr Hnil];
    simpl.
  - assert (Hcmp : bool_decide (op = token.EQL) || bool_decide (op = token.NEQ)
                   = true).
    { destruct Hop as [-> | ->]; done. }
    rewrite Hcmp, Hnil, Hobj. simpl. apply get_insert_eq.
  - assert (Hcmp : bool_decide (op = token.EQL) || bool_decide (op = token.NEQ)
                   = true).
    { destruct Hop as [-> | ->]; done. }
    rewrite Hcmp, Hnil, Hobj. simpl. apply get_insert_eq.
  - by eapply nilAssigned_records.
Qed.




(** The [items] of [makeSlice], declared on line 81, has the same name
    and no use with [nil]: it is reported, the one of line 91 is not. *)
Example same_name_other_variable :
  get (findNilUsages (inspector.New (Files Sample.a))) (Sample.at_ 81 2) = false
  /\ In (Sample.at_ 81 16)
        (List.map DiagPos (run (H := Sample.asciiText) Sample.defaults Sample.a))
  /\ ~ In (Sample.at_ 91 16)
          (List.map DiagPos (run (H := Sample.asciiText) Sample.defaults Sample.a)).
Proof.
  split; [reflexivity|]. split; vm_compute; intuition discriminate.
Qed.


(** ** The test package, end to end

    [run] reports the five lines of [a.go] that carry a [want] comment,
    in order, and nothing on the other lines. *)
Example run_on_the_test_data :
  List.map (fun d => (Line Sample.a (DiagPos d), category d, DiagSize d))
           (run (H := Sample.asciiText) Sample.defaults Sample.a)
  = [(20, PointerReturn, 32); (39, PointerSequenceReturn, 32);
     (50, PointerReceiver, 32); (72, PointerSequenceVariable, 32);
     (81, PointerSequenceVariable, 32)].
Proof. reflexivity. Qed.

(** * Further properties of the analyzer *)

(** ** What [run] reports *)

Lemma visit_other `{GoStdlib} cfg pass excluded nolintLines
    nilReturns receiverMutations nilUsages n :
  inspector.kindOf n
    ∉ [inspector.FuncDecl; inspector.GenDecl; inspector.AssignStmt] ->
  visit cfg pass excluded nolintLines nilReturns receiverMutations nilUsages n
  = [].
Proof.
  intros Hkind. unfold visit.
  destruct (get excluded _); [done|]. destruct (get nolintLines _); [done|].
  destruct n as [fd|[e|[]|d]]; simpl in *; try done; set_solver.
Qed.

Lemma run_visits `{GoStdlib} cfg pass d :
  In d (run cfg pass)
  <-> exists node,
        In node (inspector.New (Files pass))
        /\ In d (visit cfg pass (excludedFilesOf cfg pass) (buildNolintMap pass)
                   (findNilReturns (inspector.New (Files pass)))
                   (findReceiverMutations pass (inspector.New (Files pass)))
                   (findNilUsages (inspector.New (Files pass))) node).
Proof.
  split; [apply run_origin|].
  intros (node & Hnode & Hd).
  unfold run, inspector.Preorder.
  rewrite fold_left_app_flat_map. simpl. apply in_flat_map.
  exists node. split; [|done].
  apply List.filter_In. split; [done|].
  apply bool_decide_eq_true. apply dec_stable. intros Hkind.
  by rewrite visit_other in Hd.
Qed.

(** X1: [run] reports exactly what the rule of a node's kind reports at
    the nodes of the pass whose file is not excluded and whose line is
    not suppressed: function declarations, variable declarations and
    assignments, and nothing for any other node. *)
Theorem run_reports_exactly `{GoStdlib} cfg pass d :
  In d (run cfg pass)
  <-> exists node,
        In node (inspector.New (Files pass))
        /\ get (excludedFilesOf cfg pass) (FileName pass (ast.NodePos node))
           = false
        /\ get (buildNolintMap pass) (Line pass (ast.NodePos node)) = false
        /\ In d match node with
                | ast.FuncDeclNode fn =>
                    checkFuncDecl cfg pass fn
                      (findNilReturns (inspector.New (Files pass)))
                      (findReceiverMutations pass (inspector.New (Files pass)))
                | ast.SubNode (ast.GenDeclNode decl) =>
                    checkGenDecl cfg pass decl
                      (findNilUsages (inspector.New (Files pass)))
                | ast.SubNode (ast.StmtNode (ast.AssignStmt lhs tok rhs)) =>
                    checkAssignStmt cfg pass lhs tok rhs
                      (findNilUsages (inspector.New (Files pass)))
                | _ => []
                end.
Proof.
  rewrite run_visits. split.
  - intros (node & Hnode & Hd). exists node. split; [done|].
    pose proof (visit_not_suppressed _ _ _ _ _ _ _ _ _ Hd) as [Hfile Hline].
    split; [done|]. split; [done|].
    unfold visit in Hd. by rewrite Hfile, Hline in Hd.
  - intros (node & Hnode & Hfile & Hline & Hd). exists node. split; [done|].
    unfold visit. by rewrite Hfile, Hline.
Qed.

(** ** Reports are justified *)

Lemma report_justified cfg pos fmt t q :
  (sizeOf t >? threshold cfg) = false ->
  (fmt <> ValueReceiverFmt -> types.isStruct (types.Underlying t) = true) ->
  justified cfg (mkDiagnostic pos fmt t q (sizeOf t) (threshold cfg)).
Proof.
  intros Hsize Hstruct. unfold justified. simpl.
  split; [done|]. split; [done|]. split.
  - rewrite Z.gtb_ltb in Hsize. by apply Z.ltb_ge.
  - intros Hcat. apply Hstruct. intros ->. by apply Hcat.
Qed.

Lemma checkMethodReceiver_justified cfg pass fn receiverMutations :
  Forall (justified cfg) (checkMethodReceiver cfg pass fn receiverMutations).
Proof.
  unfold checkMethodReceiver.
  repeat (case_match; try apply List.Forall_nil).
  apply List.Forall_cons; [|apply List.Forall_nil]. by apply report_justified.
Qed.

Lemma checkResult_justified cfg pass fn nilReturns result :
  Forall (justified cfg) (checkResult cfg pass fn nilReturns result).
Proof.
  unfold checkResult, checkPointerReturn, checkSliceReturn.
  repeat (case_match; try apply List.Forall_nil);
    (apply List.Forall_cons; [|apply List.Forall_nil]);
    apply report_justified; try done; intros _; by apply negb_false_iff.
Qed.

Lemma reportSlice_justified cfg pass lbrack x :
  Forall (justified cfg) (reportSlice cfg pass lbrack x).
Proof.
  unfold reportSlice.
  repeat (case_match; try apply List.Forall_nil).
  apply List.Forall_cons; [|apply List.Forall_nil].
  apply report_justified; try done. intros _. by apply negb_false_iff.
Qed.

Lemma Forall_flat_map_intro {A B} (P : B -> Prop) (f : A -> list B) (l : list A) :
  (forall a, Forall P (f a)) -> Forall P (flat_map f l).
Proof.
  intros Hf. induction l as [|a l IH]; simpl; [apply List.Forall_nil|].
  apply Forall_app. by split.
Qed.

Lemma checkFuncDecl_justified cfg pass fn nilReturns receiverMutations :
  Forall (justified cfg)
         (checkFuncDecl cfg pass fn nilReturns receiverMutations).
Proof.
  unfold checkFuncDecl, checkReturnType. apply Forall_app. split.
  - destruct (ast.Recv fn) as [[|recv recvs]|]; try apply List.Forall_nil.
    apply checkMethodReceiver_justified.
  - destruct (ast.FuncResults fn); [|apply List.Forall_nil].
    apply Forall_flat_map_intro. apply checkResult_justified.
Qed.

Lemma checkGenDecl_justified cfg pass decl nilUsages :
  Forall (justified cfg) (checkGenDecl cfg pass decl nilUsages).
Proof.
  destruct decl as [tokpos tok specs]. simpl.
  case_bool_decide; [|apply List.Forall_nil].
  apply Forall_flat_map_intro. intros spec. unfold checkSpec.
  repeat (case_match; try apply List.Forall_nil). apply reportSlice_justified.
Qed.

Lemma checkAssignStmt_justified cfg pass lhs tok rhs nilUsages :
  Forall (justified cfg) (checkAssignStmt cfg pass lhs tok rhs nilUsages).
Proof.
  unfold checkAssignStmt. case_bool_decide; [|apply List.Forall_nil].
  revert lhs. induction rhs as [|r rhs IH]; intros lhs; simpl;
    [apply List.Forall_nil|].
  apply Forall_app. split; [|apply IH].
  unfold checkRhs.
  repeat (case_match; try apply List.Forall_nil). apply reportSlice_justified.
Qed.

(** X2: every diagnostic [run] reports carries the configured threshold
    and the size of the type it names, that size is at most the
    threshold, and under every rule but PointerReceiver the type is a
    struct. *)
Theorem run_reports_are_justified `{GoStdlib} cfg pass :
  Forall (justified cfg) (run cfg pass).
Proof.
  apply List.Forall_forall. intros d Hd.
  apply run_visits in Hd as (node & _ & Hd).
  revert d Hd. apply List.Forall_forall. unfold visit.
  destruct (get _ _); [apply List.Forall_nil|].
  destruct (get _ _); [apply List.Forall_nil|].
  destruct node as [fn|[e|[]|decl]]; try apply List.Forall_nil.
  - apply checkFuncDecl_justified.
  - apply checkAssignStmt_justified.
  - apply checkGenDecl_justified.
Qed.

(** ** Raising the threshold *)

Section Raise.
Variables (cfg1 cfg2 : Config) (pass : Pass).
Hypothesis Hle : threshold cfg1 <= threshold cfg2.

Ltac raise_sizes :=
  repeat (case_match; try done);
  first
    [ by (intros [<-|[]]; left)
    | exfalso;
      repeat match goal with
             | Hsize : (_ >? _) = _ |- _ =>
                 rewrite Z.gtb_ltb in Hsize;
                 first [apply Z.ltb_lt in Hsize | apply Z.ltb_ge in Hsize]
             end;
      lia ].

Lemma checkMethodReceiver_raise fn receiverMutations d :
  In d (checkMethodReceiver cfg1 pass fn receiverMutations) ->
  In (withThreshold (threshold cfg2) d)
     (checkMethodReceiver cfg2 pass fn receiverMutations).
Proof.
  unfold checkMethodReceiver. raise_sizes.
Qed.

Lemma checkResult_raise fn nilReturns result d :
  In d (checkResult cfg1 pass fn nilReturns result) ->
  In (withThreshold (threshold cfg2) d)
     (checkResult cfg2 pass fn nilReturns result).
Proof.
  unfold checkResult, checkPointerReturn, checkSliceReturn. raise_sizes.
Qed.

Lemma reportSlice_raise lbrack x d :
  In d (reportSlice cfg1 pass lbrack x) ->
  In (withThreshold (threshold cfg2) d) (reportSlice cfg2 pass lbrack x).
Proof.
  unfold reportSlice. raise_sizes.
Qed.

Lemma flat_map_raise {A} (f1 f2 : A -> list Diagnostic) (l : list A) d :
  (forall a d, In d (f1 a) -> In (withThreshold (threshold cfg2) d) (f2 a)) ->
  In d (flat_map f1 l) ->
  In (withThreshold (threshold cfg2) d) (flat_map f2 l).
Proof.
  intros Hf. rewrite !in_flat_map. intros (a & Ha & Hd). eauto.
Qed.

Lemma checkFuncDecl_raise fn nilReturns receiverMutations d :
  In d (checkFuncDecl cfg1 pass fn nilReturns receiverMutations) ->
  In (withThreshold (threshold cfg2) d)
     (checkFuncDecl cfg2 pass fn nilReturns receiverMutations).
Proof.
  unfold checkFuncDecl, checkReturnType. rewrite !in_app_iff.
  intros [Hd|Hd]; [left|right].
  - destruct (ast.Recv fn) as [[|recv recvs]|]; try done.
    by apply checkMethodReceiver_raise.
  - destruct (ast.FuncResults fn); [|done].
    revert Hd. apply flat_map_raise. apply checkResult_raise.
Qed.

Lemma checkGenDecl_raise decl nilUsages d :
  In d (checkGenDecl cfg1 pass decl nilUsages) ->
  In (withThreshold (threshold cfg2) d) (checkGenDecl cfg2 pass decl nilUsages).
Proof.
  destruct decl as [tokpos tok specs]. simpl.
  case_bool_decide; [|done].
  apply flat_map_raise. intros spec d'. unfold checkSpec.
  repeat (case_match; try done). apply reportSlice_raise.
Qed.

Lemma checkAssignStmt_raise lhs tok rhs nilUsages d :
  In d (checkAssignStmt cfg1 pass lhs tok rhs nilUsages) ->
  In (withThreshold (threshold cfg2) d)
     (checkAssignStmt cfg2 pass lhs tok rhs nilUsages).
Proof.
  unfold checkAssignStmt. case_bool_decide; [|done].
  revert lhs. induction rhs as [|r rhs IH]; intros lhs; simpl; [done|].
  rewrite !in_app_iff. intros [Hd|Hd]; [left|right; by apply IH].
  revert Hd. unfold checkRhs.
  repeat (case_match; try done). apply reportSlice_raise.
Qed.

End Raise.

(** X3: raising the threshold, with the same exclusion patterns, never
    loses a diagnostic: what is reported under the smaller threshold is
    reported under the larger one, at the same place and with the same
    type and size. *)
Theorem raising_threshold_keeps_diagnostics `{GoStdlib} cfg1 cfg2 pass d :
  threshold cfg1 <= threshold cfg2 ->
  excludePatterns cfg1 = excludePatterns cfg2 ->
  In d (run cfg1 pass) ->
  In (withThreshold (threshold cfg2) d) (run cfg2 pass).
Proof.
  intros Hle Hpatterns. rewrite !run_visits.
  intros (node & Hnode & Hd). exists node. split; [done|].
  assert (Hexcluded : excludedFilesOf cfg2 pass = excludedFilesOf cfg1 pass).
  { unfold excludedFilesOf. by rewrite Hpatterns. }
  rewrite Hexcluded. revert Hd. unfold visit.
  destruct (get _ _); [done|]. destruct (get _ _); [done|].
  destruct node as [fn|[e|[]|decl]]; try done.
  - by apply checkFuncDecl_raise.
  - by apply checkAssignStmt_raise.
  - by apply checkGenDecl_raise.
Qed.

(** The diagnostic of [GetSmallStruct] in the test data, reported under
    a threshold of 32 bytes, is also reported under the default
    threshold. *)
Lemma test_data_from_32_to_1024 :
  In (mkDiagnostic 20023 ValueReturnFmt Sample.SmallStruct RelativeToPkg 32 32)
     (run (H := Sample.asciiText) (mkConfig 32 []) Sample.a) /\
  In (mkDiagnostic 20023 ValueReturnFmt Sample.SmallStruct RelativeToPkg 32 1024)
     (run (H := Sample.asciiText) (mkConfig 1024 []) Sample.a).
Proof.
  assert (Hd : In (mkDiagnostic 20023 ValueReturnFmt Sample.SmallStruct
                     RelativeToPkg 32 32)
                  (run (H := Sample.asciiText) (mkConfig 32 []) Sample.a)).
  { vm_compute. by left. }
  split; [exact Hd|].
  apply (raising_threshold_keeps_diagnostics (mkConfig 32 []) (mkConfig 1024 [])
           Sample.a _ ltac:(simpl; lia) eq_refl Hd).
Defined.

(** ** A pointer result is reported *)

Lemma declared_is_visited pass fn :
  declaredIn pass fn -> In (ast.FuncDeclNode fn) (inspector.New (Files pass)).
Proof.
  intros Hfn. destruct (New_split pass fn Hfn) as (pre & post & ->).
  apply in_app_iff. right. by left.
Qed.

(** X4: a function declaration of the pass with a result written [*X],
    where [X] is a struct type no larger than the threshold, is reported
    by [run] at that result under PointerReturn, provided the
    declaration is not recorded as returning nil, its file is not
    excluded and its line is not suppressed. *)
Theorem pointer_result_is_reported `{GoStdlib} cfg pass fn results names star x t :
  declaredIn pass fn ->
  ast.FuncResults fn = Some results ->
  In (ast.mkField names (ast.StarExpr star x)) results ->
  Types pass x = Some t ->
  types.isStruct (types.Underlying t) = true ->
  sizeOf t <= threshold cfg ->
  get (findNilReturns (inspector.New (Files pass))) (funcKey fn) = false ->
  get (excludedFilesOf cfg pass) (FileName pass (ast.FuncPos fn)) = false ->
  get (buildNolintMap pass) (Line pass (ast.FuncPos fn)) = false ->
  In (mkDiagnostic star ValueReturnFmt t RelativeToPkg (sizeOf t) (threshold cfg))
     (run cfg pass).
Proof.
  intros Hfn Hresults Hresult Hty Hstruct Hsize Hnil Hfile Hline.
  apply run_visits. exists (ast.FuncDeclNode fn).
  split; [by apply declared_is_visited|].
  unfold visit. simpl ast.NodePos. rewrite Hfile, Hline.
  unfold checkFuncDecl. apply in_app_iff. right.
  rewrite Hresults. unfold checkReturnType. rewrite Hresults. simpl.
  apply in_flat_map. eexists. split; [exact Hresult|].
  unfold checkResult. simpl. unfold checkPointerReturn.
  rewrite Hnil, Hty, Hstruct. simpl.
  rewrite Z.gtb_ltb. destruct (Z.ltb_spec (threshold cfg) (sizeOf t)); [lia|].
  by left.
Qed.

(** [GetSmallStruct] of the test data. *)
Lemma GetSmallStruct_is_reported :
  In (mkDiagnostic (Sample.at_ 20 23) ValueReturnFmt Sample.SmallStruct
        RelativeToPkg 32 1024)
     (run (H := Sample.asciiText) Sample.defaults Sample.a).
Proof.
  apply (pointer_result_is_reported Sample.defaults Sample.a
           Sample.GetSmallStruct
           (default [] (ast.FuncResults Sample.GetSmallStruct)) []
           (Sample.at_ 20 23)
           (ast.IdentExpr (Sample.free (Sample.at_ 20 24) "SmallStruct"))
           Sample.SmallStruct).
  - exists Sample.a_go. split; left; reflexivity.
  - reflexivity.
  - left. reflexivity.
  - reflexivity.
  - reflexivity.
  - vm_compute. discriminate.
  - reflexivity.
  - reflexivity.
  - reflexivity.
Defined.

(** ** What the trackers record, exactly *)

Lemma snoc_split {A} (l pre post : list A) (n m : A) :
  (l ++ [n] = pre ++ m :: post)%list
  <-> (pre = l /\ m = n /\ post = [])
      \/ exists post', post = (post' ++ [n])%list /\ l = (pre ++ m :: post')%list.
Proof.
  split.
  - intros Heq. destruct post as [|p post _] using rev_ind.
    + apply app_inj_tail in Heq as [-> ->]. by left.
    + right. exists post.
      rewrite app_comm_cons, app_assoc in Heq.
      apply app_inj_tail in Heq as [-> ->]. done.
  - intros [(-> & -> & ->)|(post' & -> & ->)]; [done|].
    by rewrite <- app_assoc.
Qed.

(** A tracker threads a context through the nodes and adds keys to a
    map: a key is in the map at the end exactly when some node added it
    under the context of the nodes before it. *)
Lemma tracker_spec `{Countable K} {C : Type}
    (f : gmap K bool * C -> ast.Node -> gmap K bool * C)
    (next : C -> ast.Node -> C) (adds : C -> ast.Node -> K -> Prop) :
  (forall r c n, snd (f (r, c) n) = next c n) ->
  (forall r c n k,
      get (fst (f (r, c) n)) k = true <-> get r k = true \/ adds c n k) ->
  forall l c0 k,
    get (fst (fold_left f l (∅, c0))) k = true
    <-> exists pre n post,
          l = (pre ++ n :: post)%list /\ adds (fold_left next pre c0) n k.
Proof.
  intros Hnext Hadds l c0 k.
  assert (Hctx : forall l, snd (fold_left f l (∅, c0)) = fold_left next l c0).
  { intros l'. induction l' as [|n l' IH] using rev_ind; [done|].
    rewrite !fold_left_app. simpl.
    destruct (fold_left f l' (∅, c0)) as [r c] eqn:Hst.
    rewrite Hnext. simpl in IH. by rewrite IH. }
  induction l as [|n l IH] using rev_ind.
  - simpl. rewrite get_empty. split; [done|].
    intros (pre & m & post & Heq & _). by destruct pre.
  - rewrite fold_left_app. simpl.
    specialize (Hctx l).
    destruct (fold_left f l (∅, c0)) as [r c] eqn:Hst. simpl in *.
    rewrite Hadds, IH. subst c. split.
    + intros [(pre & m & post & -> & Hm)|Hn].
      * exists pre, m, (post ++ [n])%list. by rewrite <- app_assoc.
      * exists l, n, []. done.
    + intros (pre & m & post & Heq & Hm).
      apply snoc_split in Heq as [(-> & -> & ->)|(post' & -> & ->)].
      * by right.
      * left. eauto.
Qed.

Lemma currentFunc_snoc pre n :
  currentFunc (pre ++ [n])
  = match n with
    | ast.FuncDeclNode fd => Some fd
    | _ => currentFunc pre
    end.
Proof. unfold currentFunc. by rewrite fold_left_app. Qed.

(** X5: [findNilReturns] records a key exactly when the pass holds a
    return statement with [nil] as an operand of its result list and the
    function declaration last visited before that statement has the key.
    A return before the first function declaration records nothing, and
    a return in a function literal outside any function counts for the
    declaration before it. *)
Theorem findNilReturns_exact (ins : inspector.Inspector) (k : token.Pos) :
  get (findNilReturns ins) k = true
  <-> exists pre pos results post fn,
        ins = (pre ++ ast.SubNode (ast.StmtNode (ast.ReturnStmt pos results))
                   :: post)%list
        /\ existsb isNil results = true
        /\ currentFunc pre = Some fn
        /\ funcKey fn = k.
Proof.
  unfold findNilReturns.
  rewrite Preorder_all by apply nilReturnsVisit_ignores.
  rewrite (tracker_spec nilReturnsVisit
             (fun cur n => match n with
                           | ast.FuncDeclNode fd => Some fd
                           | _ => cur
                           end)
             (fun cur n key =>
                exists pos results fn,
                  n = ast.SubNode (ast.StmtNode (ast.ReturnStmt pos results))
                  /\ existsb isNil results = true
                  /\ cur = Some fn /\ funcKey fn = key)).
  - fold (currentFunc). split.
    + intros (pre & n & post & -> & pos & results & fn & -> & Hnil & Hcur & Hkey).
      by exists pre, pos, results, post, fn.
    + intros (pre & pos & results & post & fn & -> & Hnil & Hcur & Hkey).
      exists pre, (ast.SubNode (ast.StmtNode (ast.ReturnStmt pos results))), post.
      split; [done|]. by exists pos, results, fn.
  - intros r c n. by destruct n as [fd|[e|[]|d]], c; simpl;
      try destruct (existsb isNil _).
  - intros r c n key.
    destruct n as [fd|[e|[pos results| | | |]|d]], c as [fn|]; simpl;
      try (split; [tauto|]; intros [?|(? & ? & ? & ? & ? & ? & ?)]; done).
    destruct (existsb isNil results) eqn:Hnil; simpl.
    + rewrite get_insert_true. split.
      * intros [<-|?]; [right|by left]. by exists pos, results, fn.
      * intros [?|(? & ? & ? & ? & ? & ? & ?)]; [by right|]. simplify_eq. by left.
    + split; [tauto|]. intros [?|(? & ? & ? & ? & ? & ? & ?)]; [done|].
      simplify_eq. congruence.
Qed.

Lemma receiver_context pass (pre : list ast.Node) :
  fold_left (fun (c : option ast.FuncDecl * option types.Object) n =>
               match n with
               | ast.FuncDeclNode fd => (Some fd, receiverOf pass fd)
               | _ => c
               end) pre (None, None)
  = (currentFunc pre,
     match currentFunc pre with
     | Some fd => receiverOf pass fd
     | None => None
     end).
Proof.
  induction pre as [|n pre IH] using rev_ind; [done|].
  rewrite fold_left_app, currentFunc_snoc, IH. simpl.
  by destruct n.
Qed.

Lemma receiverMutationsVisit_other pass result currentFunc receiverObj n :
  (forall fn obj, (currentFunc, receiverObj) <> (Some fn, Some obj)) ->
  fst (receiverMutationsVisit pass (result, (currentFunc, receiverObj))
         (ast.SubNode n)) = result.
Proof.
  intros Hctx.
  destruct currentFunc as [fn|], receiverObj as [obj|];
    try (by destruct (Hctx fn obj));
    by destruct n as [e|[]|d].
Qed.

(** X6: [findReceiverMutations] records a key exactly when the pass
    holds an assignment or an increment or decrement statement whose
    target refers to the receiver object of the function declaration
    last visited before it, and that declaration has the key. A method
    without a named receiver records nothing. *)
Theorem findReceiverMutations_exact pass (ins : inspector.Inspector)
    (k : token.Pos) :
  get (findReceiverMutations pass ins) k = true
  <-> exists pre m post fn obj,
        ins = (pre ++ ast.SubNode m :: post)%list
        /\ mutatesAt pass (Some obj) m = true
        /\ currentFunc pre = Some fn
        /\ receiverOf pass fn = Some obj
        /\ funcKey fn = k.
Proof.
  unfold findReceiverMutations.
  rewrite Preorder_all by apply receiverMutationsVisit_ignores.
  rewrite (tracker_spec (receiverMutationsVisit pass)
             (fun c n => match n with
                         | ast.FuncDeclNode fd => (Some fd, receiverOf pass fd)
                         | _ => c
                         end)
             (fun c n key =>
                exists m fn obj,
                  n = ast.SubNode m /\ c = (Some fn, Some obj)
                  /\ mutatesAt pass (Some obj) m = true /\ funcKey fn = key)).
  - split.
    + intros (pre & n & post & -> & m & fn & obj & -> & Hctx & Hmut & Hkey).
      rewrite receiver_context in Hctx. simplify_eq.
      exists pre, m, post, fn, obj. repeat split; try done.
      destruct (currentFunc pre); by simplify_eq.
    + intros (pre & m & post & fn & obj & -> & Hmut & Hcur & Hrecv & Hkey).
      exists pre, (ast.SubNode m), post. split; [done|].
      exists m, fn, obj. rewrite receiver_context, Hcur, Hrecv. done.
  - intros r [currentFunc receiverObj] n.
    by destruct n as [fd|[e|[]|d]], currentFunc, receiverObj; simpl;
      try destruct (existsb _ _); try destruct (refersToReceiver _ _ _).
  - intros r [[fn|] [obj|]] [fd|m] key;
      try (rewrite receiverMutationsVisit_other by (intros ? ? ?; done));
      try (simpl; split; [tauto|];
           intros [?|(? & ? & ? & ? & ? & ? & ?)]; done).
    rewrite receiverMutationsVisit_sub.
    destruct (mutatesAt pass (Some obj) m) eqn:Hmut; simpl.
    + rewrite get_insert_true. split.
      * intros [<-|?]; [right|by left]. by exists m, fn, obj.
      * intros [?|(? & ? & ? & ? & ? & ? & ?)]; [by right|]. simplify_eq.
        by left.
    + split; [tauto|]. intros [?|(? & ? & ? & ? & ? & ? & ?)]; [done|].
      simplify_eq. congruence.
Qed.

Lemma record_get key (result : gmap token.Pos bool) k :
  get (record key result) k = true <-> get result k = true \/ key = Some k.
Proof.
  destruct key as [pos|]; simpl.
  - rewrite get_insert_true. naive_solver.
  - naive_solver.
Qed.

Lemma indexedObject_Some (e : ast.Expr) k :
  indexedObject e = Some k ->
  exists v i o,
    e = ast.IndexExpr (ast.IdentExpr v) i /\ ast.Obj v = Some o
    /\ ast.ObjPos o = k.
Proof.
  destruct e as [| | |[v| | | | | | | | |] i| | | | | |]; simpl; try done.
  destruct (ast.Obj v) as [o|] eqn:Hobj; [|done].
  intros [= <-]. by exists v, i, o.
Qed.

Lemma lookup_tail {A} (l : list A) (n : nat) : tail l !! n = l !! S n.
Proof. by destruct l. Qed.

Lemma nilAssigned_get (lhs rhs : list ast.Expr) result k :
  get (nilAssigned lhs rhs result) k = true ->
  get result k = true
  \/ exists (n : nat) l r,
       lhs !! n = Some l /\ rhs !! n = Some r /\ isNil r = true
       /\ indexedObject l = Some k.
Proof.
  revert rhs result. induction lhs as [|l lhs IH]; intros rhs result; [by left|].
  simpl. intros Hget. apply IH in Hget as [Hget|(n & l' & r & Hl & Hr & Hnil & Hobj)].
  - destruct l, rhs as [|r rhs]; try by left.
    destruct (isNil r) eqn:Hnil; [|by left].
    apply record_get in Hget as [Hget|Hobj]; [by left|].
    right. by exists 0%nat, (ast.IndexExpr l1 l2), r.
  - right. exists (S n), l', r. rewrite lookup_tail in Hr. done.
Qed.

Lemma isNil_index x i : isNil (ast.IndexExpr x i) = false.
Proof. done. Qed.

Lemma nilUsagesVisit_get result n k :
  get (nilUsagesVisit result n) k = true ->
  get result k = true
  \/ exists v o, nilUse v n /\ ast.Obj v = Some o /\ ast.ObjPos o = k.
Proof.
  destruct n as [fd|[[| | | |x op y| | | | |]|[| lhs tok rhs| | |]|d]]; simpl;
    try by left.
  - destruct (bool_decide (op = token.EQL) || bool_decide (op = token.NEQ))
      eqn:Hop; [|by left].
    assert (Hop' : op = token.EQL \/ op = token.NEQ).
    { apply orb_true_iff in Hop as [Hop|Hop];
        apply bool_decide_eq_true in Hop; auto. }
    intros Hget.
    assert (Hcases : get result k = true
                     \/ (isNil y = true /\ indexedObject x = Some k)
                     \/ (isNil x = true /\ indexedObject y = Some k)).
    { destruct (isNil x) eqn:Hx, (isNil y) eqn:Hy;
        repeat (apply record_get in Hget as [Hget|Hget]); auto. }
    destruct Hcases as [?|[[Hy Hobj]|[Hx Hobj]]]; [by left| |];
      apply indexedObject_Some in Hobj as (v & i & o & -> & Hv & Ho);
      right; exists v, o; split; try done; by constructor.
  - intros Hget.
    apply nilAssigned_get in Hget as [?|(n & l & r & Hl & Hr & Hnil & Hobj)];
      [by left|].
    apply indexedObject_Some in Hobj as (v & i & o & -> & Hv & Ho).
    right. exists v, o. split; [|done]. by apply (nilUse_assign v lhs rhs tok n i r).
Qed.

(** X7: [findNilUsages] records a position exactly when some node of
    the pass compares [v[i]] with [nil] for equality or inequality, on
    either side, or assigns [nil] to [v[i]] at the same index of an
    assignment, for an identifier [v] whose parser object is declared at
    that position. *)
Theorem findNilUsages_exact (ins : inspector.Inspector) (k : token.Pos) :
  get (findNilUsages ins) k = true
  <-> exists node v o,
        In node ins /\ nilUse v node /\ ast.Obj v = Some o
        /\ ast.ObjPos o = k.
Proof.
  unfold findNilUsages.
  rewrite Preorder_all by apply nilUsagesVisit_ignores.
  rewrite (get_fold_left nilUsagesVisit
             (fun node key => exists v o,
                  nilUse v node /\ ast.Obj v = Some o /\ ast.ObjPos o = key)).
  - rewrite get_empty. naive_solver.
  - intros m node key. split; [apply nilUsagesVisit_get|].
    intros [Hget|(v & o & Huse & Hobj & <-)].
    + by apply nilUsagesVisit_mono.
    + by apply (nilUsagesVisit_records v).
Qed.

(** ** Which rules ask for a struct *)

(** X8: for a type that is not a struct, the rules for pointer results,
    slice results and slice variables report nothing, whatever its
    size; the receiver rule makes no such test and reports a pointer
    receiver of any small named type, struct or not. *)
Theorem only_receivers_need_no_struct cfg pass (x : ast.Expr) (t : types.Type_) :
  Types pass x = Some t ->
  types.isStruct (types.Underlying t) = false ->
  (forall fn star nilReturns,
      checkPointerReturn cfg pass fn star x nilReturns = [])
  /\ (forall fn lbrack len star nilReturns,
        checkSliceReturn cfg pass fn lbrack len (ast.StarExpr star x) nilReturns
        = [])
  /\ (forall lbrack, reportSlice cfg pass lbrack x = [])
  /\ (forall fn recv recvs star receiverMutations,
        ast.Recv fn = Some (recv :: recvs) ->
        ast.FieldType recv = ast.StarExpr star x ->
        get receiverMutations (funcKey fn) = false ->
        sizeOf t <= threshold cfg ->
        checkMethodReceiver cfg pass fn receiverMutations
        = [mkDiagnostic (ast.FuncPos fn) ValueReceiverFmt t RelativeToPkg
             (sizeOf t) (threshold cfg)]).
Proof.
  intros Hty Hstruct. repeat split.
  - intros fn star nilReturns. unfold checkPointerReturn.
    rewrite Hty, Hstruct. by case_match.
  - intros fn lbrack len star nilReturns. unfold checkSliceReturn.
    rewrite Hty, Hstruct. by repeat case_match.
  - intros lbrack. unfold reportSlice. by rewrite Hty, Hstruct.
  - intros fn recv recvs star receiverMutations Hrecv Hfield Hmut Hsize.
    unfold checkMethodReceiver. rewrite Hrecv, Hfield, Hmut, Hty.
    rewrite Z.gtb_ltb. by destruct (Z.ltb_spec (threshold cfg) (sizeOf t)); [lia|].
Qed.

(** A method [func (l *IDs) Len() int] on [type IDs []int64], 24
    bytes: the receiver is reported, a result [*IDs] is not. *)
Lemma named_slice_receiver_is_reported :
  let IDs := types.Named "IDs" (types.Slice (types.Basic types.Kint64)) in
  let pass := mkPass [] (fun _ => "ids.go") (fun pos => pos / 1000)
                (fun _ => Some IDs) (fun _ => None) (fun _ => None) in
  let x := ast.IdentExpr (Sample.free (Sample.at_ 3 10) "IDs") in
  let Len := Sample.method 3 "l" "IDs" "Len" [] [] in
  checkPointerReturn Sample.defaults pass Len (Sample.at_ 3 9) x ∅ = []
  /\ checkMethodReceiver Sample.defaults pass Len ∅
     = [mkDiagnostic (Sample.at_ 3 1) ValueReceiverFmt IDs RelativeToPkg 24 1024].
Proof.
  intros IDs pass x Len.
  destruct (only_receivers_need_no_struct Sample.defaults pass x IDs
              eq_refl eq_refl) as (Hresult & _ & _ & Hreceiver).
  split; [apply Hresult|].
  eapply Hreceiver; try reflexivity.
  vm_compute. discriminate.
Defined.

(** ** Short variable declarations, side by side *)

(** X9: [checkAssignStmt] reports only for [:=], and there it treats
    each right-hand side on its own, together with the left-hand side at
    the same index when there is one: the reports are those of the
    right-hand sides, each checked against its own variable. *)
Theorem checkAssignStmt_by_index cfg pass lhs tok rhs nilUsages d :
  In d (checkAssignStmt cfg pass lhs tok rhs nilUsages)
  <-> tok = token.DEFINE
      /\ exists (i : nat) r,
           rhs !! i = Some r /\ In d (checkRhs cfg pass nilUsages (lhs !! i) r).
Proof.
  unfold checkAssignStmt. case_bool_decide as Htok; [|naive_solver].
  split.
  - intros Hd. split; [done|]. revert lhs Hd.
    induction rhs as [|r rhs IH]; intros lhs; simpl; [done|].
    rewrite in_app_iff. intros [Hd|Hd].
    + exists 0%nat, r. split; [done|]. by destruct lhs.
    + apply IH in Hd as (i & r' & Hr & Hd). exists (S i), r'.
      split; [done|]. by rewrite <- lookup_tail.
  - intros (_ & i & r & Hr & Hd). revert lhs i Hr Hd.
    induction rhs as [|r0 rhs IH]; intros lhs i Hr Hd; [done|].
    simpl. apply in_app_iff. destruct i as [|i]; simpl in Hr.
    + left. simplify_eq. by destruct lhs.
    + right. apply (IH _ i); [done|]. by rewrite lookup_tail.
Qed.

(** ** Comment markers *)

Lemma length_append (s t : string) :
  String.length (s +:+ t) = (String.length s + String.length t)%nat.
Proof.
  induction s as [|c s IH]; [done|].
  change (S (String.length (s +:+ t)) = S (String.length s + String.length t)).
  by rewrite IH.
Qed.

Lemma drop_append (s t : string) : Strings.drop (String.length s) (s +:+ t) = t.
Proof. induction s as [|c s IH]; [done|]. exact IH. Qed.

Lemma take_append (s t : string) : Strings.take (String.length s) (s +:+ t) = s.
Proof.
  induction s as [|c s IH]; [by destruct t|].
  change (String c (Strings.take (String.length s) (s +:+ t)) = String c s).
  by rewrite IH.
Qed.

Lemma TrimSuffix_append (s suffix : string) :
  Strings.TrimSuffix (s +:+ suffix) suffix = s.
Proof.
  unfold Strings.TrimSuffix, Strings.HasSuffix.
  rewrite length_append.
  replace (String.length s + String.length suffix - String.length suffix)%nat
    with (String.length s) by lia.
  rewrite drop_append, take_append, String.eqb_refl, andb_true_r.
  by rewrite (proj2 (Nat.leb_le _ _)) by lia.
Qed.

(** X10: [buildNolintMap] strips exactly the markers of a comment: a
    directive written as a line comment, [//body], and as a block
    comment, [/*body*/], is tested as [body] trimmed, and so suppresses
    alike in both styles. *)
Theorem directive_in_either_comment_style `{GoStdlib} (body : string)
    (slash : token.Pos) :
  stripMarkers ("//" +:+ body) = body
  /\ stripMarkers ("/*" +:+ body +:+ "*/") = body
  /\ suppresses (ast.mkComment slash ("//" +:+ body))
     = isNolintComment (TrimSpace body)
  /\ suppresses (ast.mkComment slash ("/*" +:+ body +:+ "*/"))
     = isNolintComment (TrimSpace body).
Proof.
  assert (Hline : stripMarkers ("//" +:+ body) = body) by done.
  assert (Hblock : stripMarkers ("/*" +:+ body +:+ "*/") = body).
  { unfold stripMarkers.
    change (Strings.HasPrefix ("/*" +:+ body +:+ "*/") "//") with false.
    change (Strings.HasPrefix ("/*" +:+ body +:+ "*/") "/*") with true.
    cbn iota. rewrite TrimPrefix_app. apply TrimSuffix_append. }
  unfold suppresses. simpl ast.Text. by rewrite Hline, Hblock.
Qed.

(** ** The configured patterns reach [run] *)

Lemma ShouldExcludeAny_shouldExclude `{GoStdlib} (patterns : list string)
    (path : string) :
  config.ShouldExcludeAny patterns path = shouldExclude path patterns.
Proof.
  unfold shouldExclude.
  induction patterns as [|pattern patterns IH]; [done|]. simpl.
  rewrite IH. by destruct (filepath_Match pattern path),
                          (filepath_Match pattern (filepath_Base path)).
Qed.

(** X11: [Config.ShouldExclude] of the configuration package and
    [shouldExclude] of the analyzer decide alike, so the files [run]
    leaves out, once [main] has handed over the configured patterns, are
    the files of the pass that the configuration excludes. *)
Theorem configured_exclusion_reaches_run `{GoStdlib} (c : config.Config)
    (limit : Z) pass :
  (forall path,
      config.ShouldExclude c path = shouldExclude path (config.Exclude c))
  /\ (forall name,
        get (excludedFilesOf (mkConfig limit (config.Exclude c)) pass) name
        = true
        <-> exists f,
              In f (Files pass) /\ name = FileName pass (ast.Package f)
              /\ config.ShouldExclude c name = true).
Proof.
  split.
  - intros path. apply ShouldExcludeAny_shouldExclude.
  - intros name. rewrite excludedFilesOf_get. simpl.
    unfold config.ShouldExclude.
    by setoid_rewrite ShouldExcludeAny_shouldExclude.
Qed.

(** ** The threshold flag of the command *)

Lemma HasPrefix_take (n : nat) (s : string) :
  Strings.HasPrefix s (Strings.take n s) = true.
Proof.
  revert s. induction n as [|n IH]; intros [|c s]; simpl; try done.
  by rewrite Ascii.eqb_refl.
Qed.

Lemma isThresholdFlag_spec (arg : string) :
  isThresholdFlag arg = true
  <-> arg = "-threshold" \/ Strings.HasPrefix arg "-threshold=" = true.
Proof.
  unfold isThresholdFlag. rewrite orb_true_iff, andb_true_iff, String.eqb_eq.
  apply or_iff_compat_l. rewrite String.eqb_eq. split.
  - intros [_ Htake]. rewrite <- Htake. apply HasPrefix_take.
  - intros Hprefix. apply HasPrefix_inv in Hprefix. rewrite Hprefix. done.
Qed.

Lemma injected_is_flag `{config.System} (limit : Z) :
  isThresholdFlag ("-threshold=" +:+ config.strconv_Itoa limit) = true.
Proof. apply isThresholdFlag_spec. right. apply HasPrefix_app. Qed.

(** X12: handing the arguments [main] produced to [main] again changes
    nothing: the injected flag is recognised as an explicit
    [-threshold], whatever [strconv.Itoa] printed. *)
Theorem injectThreshold_idempotent `{config.System} cfg osArgs args :
  injectThreshold cfg osArgs = Some args ->
  injectThreshold cfg args = Some args.
Proof.
  unfold injectThreshold.
  destruct (config.Threshold cfg >? 0) eqn:Hpos; [|by intros [= ->]].
  destruct osArgs as [|program rest]; [done|].
  destruct (existsb isThresholdFlag rest) eqn:Hset.
  - intros [= <-]. by rewrite Hset.
  - intros [= <-]. cbn [existsb]. by rewrite injected_is_flag.
Qed.

(** A configured threshold of 512 and the arguments [pointless ./...]. *)
Lemma inject_512_twice :
  injectThreshold (H := SampleSystem.world) (config.mkConfig 512 [])
    ["pointless"; "-threshold=512"; "./..."]
  = Some ["pointless"; "-threshold=512"; "./..."].
Proof.
  apply (injectThreshold_idempotent (H := SampleSystem.world)
           (config.mkConfig 512 []) ["pointless"; "./..."]).
  reflexivity.
Defined.

(** X13: [main] injects [-threshold=<configured>] right after the
    program name exactly when the configured threshold is positive and
    no argument is [-threshold] or begins with [-threshold=]; in every
    other case the arguments stay as they are, and the arguments of the
    user are never dropped or reordered. An empty argument list makes
    [main] panic exactly when the configured threshold is positive. *)
Theorem injectThreshold_spec `{config.System} cfg program rest :
  (injectThreshold cfg [] = None <-> 0 < config.Threshold cfg)
  /\ (0 < config.Threshold cfg ->
      (forall arg, In arg rest ->
                   arg <> "-threshold"
                   /\ Strings.HasPrefix arg "-threshold=" = false) ->
      injectThreshold cfg (program :: rest)
      = Some (program
              :: ("-threshold=" +:+ config.strconv_Itoa (config.Threshold cfg))
              :: rest))
  /\ (forall arg,
        In arg rest ->
        arg = "-threshold" \/ Strings.HasPrefix arg "-threshold=" = true ->
        injectThreshold cfg (program :: rest) = Some (program :: rest))
  /\ (config.Threshold cfg <= 0 ->
      injectThreshold cfg (program :: rest) = Some (program :: rest)).
Proof.
  unfold injectThreshold. rewrite Z.gtb_ltb.
  destruct (Z.ltb_spec 0 (config.Threshold cfg)) as [Hpos|Hneg].
  - split; [done|]. split; [|split; [|lia]].
    + intros _ Hnone.
      destruct (existsb isThresholdFlag rest) eqn:Hset; [|done].
      apply existsb_exists in Hset as (arg & Harg & Hflag).
      apply isThresholdFlag_spec in Hflag. destruct (Hnone arg Harg) as [Hne Hpre].
      destruct Hflag; congruence.
    + intros arg Harg Hflag.
      assert (Hset : existsb isThresholdFlag rest = true).
      { apply existsb_exists. exists arg. by rewrite isThresholdFlag_spec. }
      by rewrite Hset.
  - split; [split; [done|lia]|]. split; [lia|]. done.
Qed.

(** The flag package also reads [--threshold=64]; [main] does not take
    it for the threshold flag and injects the configured value before
    it. *)
Example double_dash_is_not_recognised :
  injectThreshold (H := SampleSystem.world) (config.mkConfig 512 [])
    ["pointless"; "--threshold=64"; "./..."]
  = Some ["pointless"; "-threshold=512"; "--threshold=64"; "./..."].
Proof. reflexivity. Qed.

(** ** Finding and loading the configuration file *)

Section ConfigFile.
Context `{config.System}.

Lemma configIn_spec (dir path : string) :
  config.configIn dir = Some path
  <-> (path = config.filepath_Join dir ".pointless.yaml"
       /\ config.os_Stat path = true)
      \/ (path = config.filepath_Join dir ".pointless.yml"
          /\ config.os_Stat (config.filepath_Join dir ".pointless.yaml") = false
          /\ config.os_Stat path = true).
Proof.
  unfold config.configIn.
  destruct (config.os_Stat (config.filepath_Join dir ".pointless.yaml")) eqn:Hyaml.
  - split; [intros [= <-]; by left|].
    intros [[-> _]|(-> & ? & _)]; [done|congruence].
  - destruct (config.os_Stat (config.filepath_Join dir ".pointless.yml")) eqn:Hyml.
    + split; [intros [= <-]; by right|].
      intros [[-> ?]|(-> & _ & _)]; [congruence|done].
    + split; [done|]. intros [[-> ?]|(-> & _ & ?)]; congruence.
Qed.

Lemma findConfigFileFrom_found (k fuel : nat) (dir path : string) :
  (forall j, (j < k)%nat ->
             config.configIn (ancestor j dir) = None
             /\ config.filepath_Dir (ancestor j dir) <> ancestor j dir) ->
  config.configIn (ancestor k dir) = Some path ->
  (k < fuel)%nat ->
  config.findConfigFileFrom fuel dir = Some path.
Proof.
  revert fuel dir. induction k as [|k IH]; intros [|fuel] dir Hup Hin Hfuel;
    try lia; cbn [config.findConfigFileFrom ancestor] in *.
  - by rewrite Hin.
  - destruct (Hup 0%nat ltac:(lia)) as [Hnone Hparent].
    cbn [ancestor] in Hnone, Hparent.
    rewrite Hnone. rewrite (proj2 (String.eqb_neq _ _) Hparent).
    apply IH; [|done|lia]. intros j Hj. apply (Hup (S j)). lia.
Qed.

Lemma findConfigFileFrom_none (k fuel : nat) (dir : string) :
  (forall j, (j <= k)%nat -> config.configIn (ancestor j dir) = None) ->
  (forall j, (j < k)%nat ->
             config.filepath_Dir (ancestor j dir) <> ancestor j dir) ->
  config.filepath_Dir (ancestor k dir) = ancestor k dir ->
  (k < fuel)%nat ->
  config.findConfigFileFrom fuel dir = Some EmptyString.
Proof.
  revert fuel dir.
  induction k as [|k IH]; intros [|fuel] dir Hnone Hup Hroot Hfuel;
    try lia; cbn [config.findConfigFileFrom ancestor] in *.
  - pose proof (Hnone 0%nat ltac:(lia)) as Hhere. cbn [ancestor] in Hhere.
    by rewrite Hhere, Hroot, String.eqb_refl.
  - pose proof (Hnone 0%nat ltac:(lia)) as Hhere.
    pose proof (Hup 0%nat ltac:(lia)) as Hparent.
    cbn [ancestor] in Hhere, Hparent.
    rewrite Hhere, (proj2 (String.eqb_neq _ _) Hparent).
    apply IH; [| |done|lia].
    + intros j Hj. apply (Hnone (S j)). lia.
    + intros j Hj. apply (Hup (S j)). lia.
Qed.

End ConfigFile.

(** X14: [findConfigFile] returns the configuration file of the nearest
    directory, from the working directory upwards, that holds one: in
    that directory [.pointless.yaml] if it exists, [.pointless.yml]
    otherwise. A file further up is not looked at, whatever its name. *)
Theorem findConfigFile_nearest `{config.System} (k fuel : nat) (dir path : string) :
  config.os_Getwd = inl dir ->
  (forall j, (j < k)%nat ->
             config.configIn (ancestor j dir) = None
             /\ config.filepath_Dir (ancestor j dir) <> ancestor j dir) ->
  config.configIn (ancestor k dir) = Some path ->
  (k < fuel)%nat ->
  config.findConfigFile fuel = Some (path, None)
  /\ ((path = config.filepath_Join (ancestor k dir) ".pointless.yaml"
       /\ config.os_Stat path = true)
      \/ (path = config.filepath_Join (ancestor k dir) ".pointless.yml"
          /\ config.os_Stat
               (config.filepath_Join (ancestor k dir) ".pointless.yaml") = false
          /\ config.os_Stat path = true)).
Proof.
  intros Hwd Hup Hin Hfuel. split.
  - unfold config.findConfigFile. rewrite Hwd.
    by rewrite (findConfigFileFrom_found k fuel dir path).
  - by apply configIn_spec.
Qed.

(** From [/home/u/proj/pkg] the file found is the [.pointless.yml] of
    [/home/u/proj], one directory up, not the [.pointless.yaml] of
    [/home/u]. *)
Lemma nearest_in_the_sample_system :
  @config.findConfigFile SampleSystem.world 2
  = Some ("/home/u/proj/.pointless.yml", None)
  /\ (("/home/u/proj/.pointless.yml"
       = config.filepath_Join (System := SampleSystem.world)
           (@ancestor SampleSystem.world 1 "/home/u/proj/pkg")
           ".pointless.yaml"
       /\ config.os_Stat (System := SampleSystem.world)
            "/home/u/proj/.pointless.yml" = true)
      \/ ("/home/u/proj/.pointless.yml"
          = config.filepath_Join (System := SampleSystem.world)
              (@ancestor SampleSystem.world 1 "/home/u/proj/pkg")
              ".pointless.yml"
          /\ config.os_Stat (System := SampleSystem.world)
               (config.filepath_Join (System := SampleSystem.world)
                  (@ancestor SampleSystem.world 1 "/home/u/proj/pkg")
                  ".pointless.yaml") = false
          /\ config.os_Stat (System := SampleSystem.world)
               "/home/u/proj/.pointless.yml" = true)).
Proof.
  apply (findConfigFile_nearest (H := SampleSystem.world) 1 2
           "/home/u/proj/pkg" "/home/u/proj/.pointless.yml").
  - reflexivity.
  - intros j Hj. assert (j = 0%nat) as -> by lia. split; [reflexivity|].
    vm_compute. discriminate.
  - reflexivity.
  - lia.
Defined.

(** X15: [Load] returns the default configuration and no error when no
    directory from the working directory up to the root holds a
    configuration file, and also when the working directory cannot be
    read. *)
Theorem Load_defaults_without_file `{config.System} (k fuel : nat) :
  (forall dir,
      config.os_Getwd = inl dir ->
      (forall j, (j <= k)%nat -> config.configIn (ancestor j dir) = None) ->
      (forall j, (j < k)%nat ->
                 config.filepath_Dir (ancestor j dir) <> ancestor j dir) ->
      config.filepath_Dir (ancestor k dir) = ancestor k dir ->
      (k < fuel)%nat ->
      config.Load fuel = Some (config.DefaultConfig, None))
  /\ (forall err,
        config.os_Getwd = inr err ->
        config.Load fuel = Some (config.DefaultConfig, None)).
Proof.
  split.
  - intros dir Hwd Hnone Hup Hroot Hfuel.
    unfold config.Load, config.findConfigFile. rewrite Hwd.
    by rewrite (findConfigFileFrom_none k fuel dir).
  - intros err Hwd. unfold config.Load, config.findConfigFile. by rewrite Hwd.
Qed.

(** X16: the two copies of [Load] return the same configuration. Where
    the first returns an error the second returns it wrapped, and the
    second returns an error besides only when the working directory
    cannot be read, which the first passes over. *)
Theorem Load_copies_agree `{config.System} (fuel : nat) :
  fst <$> config.LoadWrapped fuel = fst <$> config.Load fuel
  /\ (forall cfg err,
        config.Load fuel = Some (cfg, Some err) ->
        exists context,
          config.LoadWrapped fuel
          = Some (cfg, Some (config.fmt_Errorf context err)))
  /\ (forall cfg,
        config.Load fuel = Some (cfg, None) ->
        config.LoadWrapped fuel = Some (cfg, None)
        \/ exists err,
             config.os_Getwd = inr err
             /\ config.LoadWrapped fuel
                = Some (cfg,
                        Some (config.fmt_Errorf "finding config file"
                                (config.fmt_Errorf "getting working directory"
                                   err)))).
Proof.
  unfold config.Load, config.LoadWrapped, config.findConfigFile,
    config.findConfigFileWrapped.
  destruct config.os_Getwd as [dir|err0]; simpl.
  - destruct (config.findConfigFileFrom fuel dir) as [path|]; simpl; [|done].
    destruct (String.eqb path EmptyString); [naive_solver|].
    destruct (config.os_ReadFile path) as [data|err1]; [|naive_solver].
    destruct (config.yaml_Unmarshal data config.DefaultConfig) as [cfg' [err2|]];
      naive_solver.
  - split; [done|]. split; [done|]. intros cfg [= <-]. right. eauto.
Qed.

(** In a system without any configuration file. *)
Example Load_in_a_bare_system :
  @config.Load SampleSystem.bare 3 = Some (config.DefaultConfig, None)
  /\ @config.Load SampleSystem.bare 2 = None
  /\ @config.Load SampleSystem.world 2
     = Some (config.mkConfig 512 [], None).
Proof. repeat split. Qed.

(** ** Directives and files *)

(** X17: the table of suppressed lines has no file in its key: a
    matching comment in any file of the pass silences the nodes that
    start on its line number or the next in every file of the pass. *)
Theorem directive_reaches_every_file `{GoStdlib} cfg pass f cg c node
    excluded nilReturns receiverMutations nilUsages :
  In f (Files pass) ->
  In cg (ast.Comments f) ->
  In c cg ->
  suppresses c = true ->
  Line pass (ast.NodePos node) = Line pass (ast.Slash c)
  \/ Line pass (ast.NodePos node) = Line pass (ast.Slash c) + 1 ->
  visit cfg pass excluded (buildNolintMap pass) nilReturns receiverMutations
        nilUsages node = [].
Proof.
  intros Hf Hcg Hc Hmatch Hline.
  apply visit_suppressed. apply buildNolintMap_get.
  exists f, cg, c. done.
Qed.

(** [Get] of [get.go] is reported when analysed alone and silenced by
    the [//nolint] on the same line number of [doc.go]. *)
Lemma nolint_of_doc_go_silences_get_go :
  visit Sample.defaults SampleDirective.both ∅
    (buildNolintMap (H := Sample.asciiText) SampleDirective.both) ∅ ∅ ∅
    (ast.FuncDeclNode SampleDirective.Get) = [].
Proof.
  apply (directive_reaches_every_file (H := Sample.asciiText) Sample.defaults
           SampleDirective.both SampleDirective.doc_go
           [ast.mkComment (Sample.at_ 3 1) "//nolint"]
           (ast.mkComment (Sample.at_ 3 1) "//nolint")).
  - left. reflexivity.
  - left. reflexivity.
  - left. reflexivity.
  - reflexivity.
  - left. reflexivity.
Defined.

Example get_go_alone_and_beside_doc_go :
  List.map category
    (run (H := Sample.asciiText) Sample.defaults SampleDirective.alone)
  = [PointerReturn]
  /\ run (H := Sample.asciiText) Sample.defaults SampleDirective.both = [].
Proof. split; reflexivity. Qed.
